(** * cjio.model: dereferencing CityJSON geometries

    A shallow embedding of [cjio/model.py] (classes [CityModel],
    [CityObject], [SemanticSurface] and [Geometry]) and the properties of
    its boundary dereferencer, semantic-surface indexer, surface resolver
    and city-object filter.

    Python values are embedded as the dynamically typed [pyval]; a Python
    exception is the [Raise] branch of [result]. *)

From Stdlib Require Import ZArith List String Ascii Bool Lia Arith Sorted DecimalString.
Import ListNotations.
Local Open Scope string_scope.
Local Open Scope list_scope.
Local Open Scope Z_scope.

(** ** Python values *)

(** The values the module receives from a parsed CityJSON document:
    [None], integers, strings, lists and string-keyed dicts (a dict keeps
    its insertion order, as an association list). *)
#[warnings="-register-all"]
Inductive pyval : Type :=
| PNone
| PInt (z : Z)
| PStr (s : string)
| PList (l : list pyval)
| PDict (d : list (string * pyval)).

(** The exceptions the module can raise, each with its message. *)
Inductive pyerr : Type :=
| TypeError (msg : string)
| IndexError (msg : string)
| KeyError (key : string)
| AttributeError (msg : string)
| UnboundLocalError (name : string).

Inductive result (A : Type) : Type :=
| Ok (a : A)
| Raise (e : pyerr).
Arguments Ok {A} a.
Arguments Raise {A} e.

Definition bind {A B : Type} (r : result A) (k : A -> result B) : result B :=
  match r with
  | Ok a => k a
  | Raise e => Raise e
  end.

Declare Scope py_scope.
Delimit Scope py_scope with py.
Notation "x <- c ;; k" := (bind c (fun x => k))
  (at level 61, c at next level, right associativity) : py_scope.
Local Open Scope py_scope.

(** [mapM f l] evaluates [f] on the elements of [l] from left to right and
    stops at the first exception: a list comprehension or [list(map(..))]. *)
Fixpoint mapM {A B : Type} (f : A -> result B) (l : list A) : result (list B) :=
  match l with
  | [] => Ok []
  | x :: l' => y <- f x ;; ys <- mapM f l' ;; Ok (y :: ys)
  end.

(** [for_enum body l i st] is [for i, x in enumerate(l): body], threading
    the loop's state [st], [i] being the index of the head of [l]. *)
Fixpoint for_enum {A St : Type} (body : nat -> A -> St -> result St)
         (l : list A) (i : nat) (st : St) : result St :=
  match l with
  | [] => Ok st
  | x :: l' => st' <- body i x st ;; for_enum body l' (S i) st'
  end.

(** *** Built-in operations *)

Definition type_name (v : pyval) : string :=
  match v with
  | PNone => "NoneType"
  | PInt _ => "int"
  | PStr _ => "str"
  | PList _ => "list"
  | PDict _ => "dict"
  end.

(** Truth value of an object: [None], [0], [''], [[]] and [{}] are false. *)
Definition truthy (v : pyval) : bool :=
  match v with
  | PNone => false
  | PInt z => negb (z =? 0)%Z
  | PStr s => negb (String.eqb s "")
  | PList l => match l with [] => false | _ => true end
  | PDict d => match d with [] => false | _ => true end
  end.

Definition isinstance_list (v : pyval) : bool :=
  match v with PList _ => true | _ => false end.

Definition is_None (v : pyval) : bool :=
  match v with PNone => true | _ => false end.

Fixpoint chars (s : string) : list pyval :=
  match s with
  | EmptyString => []
  | String c s' => PStr (String c EmptyString) :: chars s'
  end.

(** [iter(v)]: the elements a [for] loop, [map] or [enumerate] goes through. *)
Definition py_iter (v : pyval) : result (list pyval) :=
  match v with
  | PList l => Ok l
  | PStr s => Ok (chars s)
  | PDict d => Ok (map (fun kv => PStr (fst kv)) d)
  | _ => Raise (TypeError ("'" ++ type_name v ++ "' object is not iterable")%string)
  end.

Definition py_len (v : pyval) : result Z :=
  match v with
  | PList l => Ok (Z.of_nat (List.length l))
  | PStr s => Ok (Z.of_nat (String.length s))
  | PDict d => Ok (Z.of_nat (List.length d))
  | _ => Raise (TypeError ("object of type '" ++ type_name v ++ "' has no len()")%string)
  end.

(** Indexing a sequence of length [len l] with an integer: a negative index
    counts from the end, and an index outside [-len, len) raises. *)
Definition seq_index {A : Type} (l : list A) (i : Z) : option A :=
  let n := Z.of_nat (List.length l) in
  if (0 <=? i) && (i <? n) then nth_error l (Z.to_nat i)
  else if (- n <=? i) && (i <? 0) then nth_error l (Z.to_nat (n + i))
  else None.

Fixpoint dict_lookup {V : Type} (k : string) (d : list (string * V)) : option V :=
  match d with
  | [] => None
  | (k', v) :: d' => if String.eqb k k' then Some v else dict_lookup k d'
  end.

(** [sys.maxsize] of a 64-bit build: an integer subscript of a sequence is
    first converted to an index-sized integer. *)
Definition index_max : Z := 2 ^ 63 - 1.

Definition fits_index (z : Z) : bool :=
  (- index_max - 1 <=? z) && (z <=? index_max).

(** The [IndexError] of a subscript [z] that selects nothing in a sequence
    (a [what]): out of range, or not even an index-sized integer. A
    sequence is never longer than [sys.maxsize], so a subscript that
    selects an item always fits. *)
Definition index_error (what : string) (z : Z) : pyerr :=
  if fits_index z then IndexError (what ++ " index out of range")%string
  else IndexError "cannot fit 'int' into an index-sized integer".

(** The decimal text of an integer. *)
Definition repr_int (z : Z) : string := NilZero.string_of_int (Z.to_int z).

(** [c[i]], the subscription of a container. A [KeyError] holds the text of
    the missing key. *)
Definition py_getitem (c i : pyval) : result pyval :=
  match c with
  | PList l =>
      match i with
      | PInt z =>
          match seq_index l z with
          | Some v => Ok v
          | None => Raise (index_error "list" z)
          end
      | _ => Raise (TypeError ("list indices must be integers or slices, not " ++ type_name i)%string)
      end
  | PStr s =>
      match i with
      | PInt z =>
          match seq_index (chars s) z with
          | Some v => Ok v
          | None => Raise (index_error "string" z)
          end
      | _ => Raise (TypeError "string indices must be integers")
      end
  | PDict d =>
      match i with
      | PStr k =>
          match dict_lookup k d with
          | Some v => Ok v
          | None => Raise (KeyError k)
          end
      | PList _ => Raise (TypeError "unhashable type: 'list'")
      | PDict _ => Raise (TypeError "unhashable type: 'dict'")
      | PNone => Raise (KeyError "None")
      | PInt z => Raise (KeyError (repr_int z))
      end
  | _ => Raise (TypeError ("'" ++ type_name c ++ "' object is not subscriptable")%string)
  end.

(** [str.lower] on ASCII letters. *)
Definition lower_ascii (c : ascii) : ascii :=
  let n := nat_of_ascii c in
  if (Nat.leb 65 n && Nat.leb n 90)%bool then ascii_of_nat (n + 32) else c.

Fixpoint lower (s : string) : string :=
  match s with
  | EmptyString => EmptyString
  | String c s' => String (lower_ascii c) (lower s')
  end.

(** [v.lower()]: only a [str] has the method. *)
Definition py_lower (v : pyval) : result string :=
  match v with
  | PStr s => Ok (lower s)
  | _ => Raise (AttributeError ("'" ++ type_name v ++ "' object has no attribute 'lower'")%string)
  end.

(** Keys of a dict: a list or a dict is not hashable. *)
Inductive pykey : Type :=
| KNone
| KInt (z : Z)
| KStr (s : string).

Definition py_hash (v : pyval) : result pykey :=
  match v with
  | PNone => Ok KNone
  | PInt z => Ok (KInt z)
  | PStr s => Ok (KStr s)
  | PList _ => Raise (TypeError "unhashable type: 'list'")
  | PDict _ => Raise (TypeError "unhashable type: 'dict'")
  end.

Definition pykey_eqb (a b : pykey) : bool :=
  match a, b with
  | KNone, KNone => true
  | KInt x, KInt y => (x =? y)%Z
  | KStr s, KStr t => String.eqb s t
  | _, _ => false
  end.

(** Insertion-ordered dicts as association lists with unique keys. *)
Section Assoc.
Context {K V : Type} (eqb : K -> K -> bool).

Fixpoint assoc_get (k : K) (d : list (K * V)) : option V :=
  match d with
  | [] => None
  | (k', v) :: d' => if eqb k k' then Some v else assoc_get k d'
  end.

Definition assoc_mem (k : K) (d : list (K * V)) : bool :=
  match assoc_get k d with Some _ => true | None => false end.

(** [d[k] = v]: replaces the value of an existing key in place, appends
    a new key. *)
Fixpoint assoc_set (k : K) (v : V) (d : list (K * V)) : list (K * V) :=
  match d with
  | [] => [(k, v)]
  | (k', v') :: d' =>
      if eqb k k' then (k', v) :: d' else (k', v') :: assoc_set k v d'
  end.

(** Applies [f] to the value stored under [k] (the key is present). *)
Fixpoint assoc_update (k : K) (f : V -> V) (d : list (K * V)) : list (K * V) :=
  match d with
  | [] => []
  | (k', v') :: d' =>
      if eqb k k' then (k', f v') :: d' else (k', v') :: assoc_update k f d'
  end.
End Assoc.

(** An exhausted comprehension [[f(x) for x in v]], also the shape of a
    loop that appends [f(x)] to a fresh list for each [x] in [v]. *)
Definition list_for (v : pyval) (f : pyval -> result pyval) : result pyval :=
  xs <- py_iter v ;; ys <- mapM f xs ;; Ok (PList ys).

(** Binding of a keyword-only call to a parameter: the argument passed
    under the parameter's name, else its default, else the call fails. *)
Definition bind_param (name : string) (default : option pyval)
           (kwargs : list (string * pyval)) : result pyval :=
  match dict_lookup name kwargs with
  | Some v => Ok v
  | None =>
      match default with
      | Some d => Ok d
      | None =>
          Raise (TypeError ("__init__() missing 1 required positional argument: '"
                              ++ name ++ "'")%string)
      end
  end.

(** Reading a local variable of a function body that may not be assigned yet. *)
Definition read_local (name : string) (v : option pyval) : result pyval :=
  match v with
  | Some x => Ok x
  | None => Raise (UnboundLocalError name)
  end.

(** ** class SemanticSurface *)

(** A position in a boundary: [[i]], [[i,j]] or [[i,j,k]]. *)
Definition address := list nat.

(** The dict built by the indexer, from a surface identifier to its addresses. *)
Definition SurfaceIndex := list (pykey * list address).

Module SemanticSurface.

Record t : Type := mk {
  type : pyval;
  children : pyval;
  parent : pyval;
  attributes : pyval;
  _surface_idx : SurfaceIndex
}.

(** [if key not in surface_idx.keys(): surface_idx[key] = [addr]
     else: surface_idx[key].append(addr)] *)
Definition record_address (key : pyval) (addr : address)
           (surface_idx : SurfaceIndex) : result SurfaceIndex :=
  k <- py_hash key ;;
  if negb (assoc_mem pykey_eqb k surface_idx)
  then Ok (assoc_set pykey_eqb k [addr] surface_idx)
  else Ok (assoc_update pykey_eqb k (fun a => a ++ [addr]) surface_idx).

Definition too_deep : pyerr :=
  TypeError "The 'values' member of 'semantics' is too many levels deep".

Definition _index_surface_boundaries (values : pyval) : result SurfaceIndex :=
  let surface_idx : SurfaceIndex := [] in
  if negb (truthy values) then Ok surface_idx
  else
    n <- py_len values ;;
    if n =? 0 then Ok surface_idx
    else
      vs <- py_iter values ;;
      for_enum (fun i idx surface_idx =>
        if negb (is_None idx) then
          if isinstance_list idx then
            js <- py_iter idx ;;
            for_enum (fun j jdx surface_idx =>
              if negb (is_None jdx) then
                if isinstance_list jdx then
                  ks <- py_iter jdx ;;
                  for_enum (fun k kdx surface_idx =>
                    if isinstance_list kdx then Raise too_deep
                    else if negb (is_None kdx)
                         then record_address kdx [i; j; k]%nat surface_idx
                         else Ok surface_idx) ks 0%nat surface_idx
                else record_address jdx [i; j]%nat surface_idx
              else Ok surface_idx) js 0%nat surface_idx
          else record_address idx [i]%nat surface_idx
        else Ok surface_idx) vs 0%nat surface_idx.

(** [__init__(self, type, values, children=None, parent=None,
    attributes=None)]; the [surface_idx] setter indexes [values]. *)
Definition __init__ (type values children parent attributes : pyval) : result t :=
  idx <- _index_surface_boundaries values ;;
  Ok (mk type children parent attributes idx).

(** A call [SemanticSurface(k1=v1, ...)] with keyword arguments only. *)
Definition call (kwargs : list (string * pyval)) : result t :=
  type <- bind_param "type" None kwargs ;;
  values <- bind_param "values" None kwargs ;;
  children <- bind_param "children" (Some PNone) kwargs ;;
  parent <- bind_param "parent" (Some PNone) kwargs ;;
  attributes <- bind_param "attributes" (Some PNone) kwargs ;;
  __init__ type values children parent attributes.

End SemanticSurface.

(** ** class Geometry *)

Module Geometry.

Record t : Type := mk {
  type : pyval;
  lod : pyval;
  boundaries : pyval;
  surfaces : list (nat * SemanticSurface.t)
}.

(** [list(map(lambda x: vertices[x], boundary))] *)
Definition _vertex_mapper (boundary vertices : pyval) : result pyval :=
  list_for boundary (fun x => py_getitem vertices x).

Definition _get_surface_boundaries (boundaries surface_idx : pyval) : result pyval :=
  if negb (truthy surface_idx) then Ok (PList [])
  else
    n <- py_len surface_idx ;;
    if n =? 0 then Ok (PList [])
    else
      list_for surface_idx (fun i =>
        n1 <- py_len i ;;
        if n1 =? 1 then
          i0 <- py_getitem i (PInt 0) ;;
          py_getitem boundaries i0
        else
          n2 <- py_len i ;;
          if n2 =? 2 then
            i0 <- py_getitem i (PInt 0) ;;
            b0 <- py_getitem boundaries i0 ;;
            i1 <- py_getitem i (PInt 1) ;;
            py_getitem b0 i1
          else
            i0 <- py_getitem i (PInt 0) ;;
            b0 <- py_getitem boundaries i0 ;;
            i1 <- py_getitem i (PInt 1) ;;
            b1 <- py_getitem b0 i1 ;;
            i2 <- py_getitem i (PInt 2) ;;
            py_getitem b1 i2).

Definition _dereference_boundary (btype boundary vertices : pyval) : result pyval :=
  if negb (truthy boundary) then Ok (PList [])
  else
    t <- py_lower btype ;;
    if String.eqb t "multipoint" then
      _vertex_mapper boundary vertices
    else if String.eqb t "multilinestring" then
      list_for boundary (fun b => _vertex_mapper b vertices)
    else if String.eqb t "multisurface" || String.eqb t "compositesurface" then
      list_for boundary (fun surface =>
        list_for surface (fun b => _vertex_mapper b vertices))
    else if String.eqb t "solid" then
      list_for boundary (fun shell =>
        list_for shell (fun surface =>
          list_for surface (fun b => _vertex_mapper b vertices)))
    else if String.eqb t "multisolid" || String.eqb t "compositesolid" then
      list_for boundary (fun solid =>
        list_for solid (fun shell =>
          list_for shell (fun surface =>
            list_for surface (fun b => _vertex_mapper b vertices))))
    else Ok PNone.

(** [srf.items()] *)
Definition py_items (v : pyval) : result (list (string * pyval)) :=
  match v with
  | PDict d => Ok d
  | _ => Raise (AttributeError ("'" ++ type_name v ++ "' object has no attribute 'items'")%string)
  end.

(** The local variables of [_dereference_surfaces] that are assigned
    inside its loop and keep their value from one round to the next. *)
Record locals : Type := mk_locals {
  l_type : option pyval;
  l_children : option pyval;
  l_parent : option pyval
}.

(** One round of [for key, value in srf.items()]. *)
Definition assign_item (st : locals * list (string * pyval)) (kv : string * pyval)
  : locals * list (string * pyval) :=
  let (loc, attributes) := st in
  let (key, value) := kv in
  if String.eqb key "type" then
    (mk_locals (Some value) (l_children loc) (l_parent loc), attributes)
  else if String.eqb key "children" then
    (mk_locals (l_type loc) (Some value) (l_parent loc), attributes)
  else if String.eqb key "parent" then
    (mk_locals (l_type loc) (l_children loc) (Some value), attributes)
  else (loc, assoc_set String.eqb key value attributes).

Definition _dereference_surfaces (semantics_obj : pyval)
  : result (list (nat * SemanticSurface.t)) :=
  let semantic_surfaces : list (nat * SemanticSurface.t) := [] in
  if negb (truthy semantics_obj) then Ok semantic_surfaces
  else
    values <- py_getitem semantics_obj (PStr "values") ;;
    if negb (truthy values) then Ok semantic_surfaces
    else
      surfaces <- py_getitem semantics_obj (PStr "surfaces") ;;
      srfs <- py_iter surfaces ;;
      st <- for_enum (fun i srf (st : locals * list (nat * SemanticSurface.t)) =>
              let (loc, semantic_surfaces) := st in
              items <- py_items srf ;;
              let (loc', attributes) := fold_left assign_item items (loc, []) in
              type <- read_local "type" (l_type loc') ;;
              children <- read_local "children" (l_children loc') ;;
              parent <- read_local "parent" (l_parent loc') ;;
              s <- SemanticSurface.call [("type", type); ("children", children);
                                         ("parent", parent);
                                         ("attributes", PDict attributes)] ;;
              Ok (loc', assoc_set Nat.eqb i s semantic_surfaces))
            srfs 0%nat (mk_locals None None None, semantic_surfaces) ;;
      Ok (snd st).

Definition __init__ (type lod boundaries semantics_obj vertices : pyval) : result t :=
  b <- _dereference_boundary type boundaries vertices ;;
  s <- _dereference_surfaces semantics_obj ;;
  Ok (mk type lod b s).

End Geometry.

(** ** class CityObject, class CityModel *)

Module CityObject.
Record t : Type := mk {
  id : pyval;
  type : string;
  geometry : pyval
}.
End CityObject.

(** [str.lower] is the interpreter's own, aware of every cased letter of
    Unicode, and is taken as given: what follows is written for any
    lowering function [str_lower] on the text of a [str]. ([lower] above is
    what it does to ASCII text.) *)
Definition lowering : Type := string -> string.

(** The frame of a suspended generator expression
    [(co for co in cityobjects if co.type.lower() == target)]: the items its
    list iterator has not reached yet, and the captured [target]. *)
Record genexpr : Type := mk_genexpr {
  pending : list CityObject.t;
  target : string
}.

(** The store of generator objects; a generator is known by its position. *)
Definition heap := list genexpr.

(** What [get_cityobjects] hands out: the model's own list, or a reference
    to a generator object. *)
Inductive pyobj : Type :=
| OList (l : list CityObject.t)
| OGen (ref : nat).

(** [next] on a generator frame: runs the loop up to the next item that
    passes the test; [None] is [StopIteration]. *)
Fixpoint gen_next (str_lower : lowering) (tgt : string) (items : list CityObject.t)
  : option CityObject.t * list CityObject.t :=
  match items with
  | [] => (None, [])
  | co :: rest =>
      if String.eqb (str_lower (CityObject.type co)) tgt then (Some co, rest)
      else gen_next str_lower tgt rest
  end.

(** Repeated [next] until [StopIteration], at most [fuel] items. *)
Fixpoint gen_drain (str_lower : lowering) (fuel : nat) (g : genexpr)
  : list CityObject.t * genexpr :=
  match fuel with
  | O => ([], g)
  | S fuel' =>
      match gen_next str_lower (target g) (pending g) with
      | (None, rest) => ([], mk_genexpr rest (target g))
      | (Some co, rest) =>
          let (cos, g') := gen_drain str_lower fuel' (mk_genexpr rest (target g)) in
          (co :: cos, g')
      end
  end.

Fixpoint heap_set (ref : nat) (g : genexpr) (h : heap) : heap :=
  match h, ref with
  | [], _ => []
  | _ :: h', O => g :: h'
  | g0 :: h', S ref' => g0 :: heap_set ref' g h'
  end.

(** [list(o)]: all the items [o] still yields, and the store afterwards. *)
Definition py_list (str_lower : lowering) (o : pyobj) (h : heap)
  : list CityObject.t * heap :=
  match o with
  | OList l => (l, h)
  | OGen ref =>
      match nth_error h ref with
      | Some g =>
          let (cos, g') := gen_drain str_lower (S (List.length (pending g))) g in
          (cos, heap_set ref g' h)
      | None => ([], h)
      end
  end.

Module CityModel.

Record t : Type := mk {
  cityobjects : list CityObject.t
}.

Definition get_cityobjects (str_lower : lowering) (self : t) (type : pyval) (h : heap)
  : result (pyobj * heap) :=
  if is_None type then Ok (OList (cityobjects self), h)
  else
    match type with
    | PStr s =>
        let target := str_lower s in
        Ok (OGen (List.length h), h ++ [mk_genexpr (cityobjects self) target])
    | _ => Raise (TypeError "type parameter must be a string")
    end.

End CityModel.

(** * Specification side *)

(** ** Geometry kinds and boundary shapes *)

Inductive GeometryKind : Type :=
| MultiPoint
| MultiLineString
| MultiSurface
| CompositeSurface
| Solid
| MultiSolid
| CompositeSolid.

Definition kind_name (k : GeometryKind) : string :=
  match k with
  | MultiPoint => "MultiPoint"
  | MultiLineString => "MultiLineString"
  | MultiSurface => "MultiSurface"
  | CompositeSurface => "CompositeSurface"
  | Solid => "Solid"
  | MultiSolid => "MultiSolid"
  | CompositeSolid => "CompositeSolid"
  end.

(** The levels of nesting a kind adds above a flat list of indices. *)
Definition kind_levels (k : GeometryKind) : nat :=
  match k with
  | MultiPoint => 0
  | MultiLineString => 1
  | MultiSurface | CompositeSurface => 2
  | Solid => 3
  | MultiSolid | CompositeSolid => 4
  end.

(** The number of list levels of a boundary of kind [k]. *)
Definition kind_depth (k : GeometryKind) : nat := S (kind_levels k).

(** [s] names the kind [k], whatever the case of its letters. *)
Definition names_kind (s : string) (k : GeometryKind) : Prop :=
  lower s = lower (kind_name k).

(** [leaves_ok p d v]: [v] is nested lists of exactly [d] levels whose
    leaves are integers satisfying [p]. *)
Fixpoint leaves_ok (p : Z -> bool) (d : nat) (v : pyval) : bool :=
  match d with
  | O => match v with PInt i => p i | _ => false end
  | S d' => match v with PList l => forallb (leaves_ok p d') l | _ => false end
  end.

(** [some_leaf q d v]: some leaf at level [d] of [v] is an integer
    satisfying [q]. *)
Fixpoint some_leaf (q : Z -> bool) (d : nat) (v : pyval) : bool :=
  match d with
  | O => match v with PInt i => q i | _ => false end
  | S d' => match v with PList l => existsb (some_leaf q d') l | _ => false end
  end.

(** [shaped R d raw out]: [out] has the list structure of [raw] down to
    level [d], where a leaf [i] of [raw] faces a value [R]-related to it. *)
Fixpoint shaped (R : Z -> pyval -> Prop) (d : nat) (raw out : pyval) : Prop :=
  match d with
  | O => exists i, raw = PInt i /\ R i out
  | S d' => exists l l', raw = PList l /\ out = PList l' /\ Forall2 (shaped R d') l l'
  end.

(** [coords_at vs d out]: [out] is nested lists of exactly [d] levels
    whose leaves are entries of the vertex table [vs]. *)
Fixpoint coords_at (vs : list pyval) (d : nat) (out : pyval) : Prop :=
  match d with
  | O => In out vs
  | S d' => exists l, out = PList l /\ Forall (coords_at vs d') l
  end.

Definition vlen (vs : list pyval) : Z := Z.of_nat (List.length vs).

Definition in_range (vs : list pyval) (i : Z) : bool :=
  (0 <=? i) && (i <? vlen vs).

Definition in_wrapped_range (vs : list pyval) (i : Z) : bool :=
  (- vlen vs <=? i) && (i <? vlen vs).

Definition beyond_range (vs : list pyval) (i : Z) : bool :=
  (i <? - vlen vs) || (vlen vs <=? i).

(** The vertex-table entry at index [i]. *)
Definition vertex_at (vs : list pyval) (i : Z) (v : pyval) : Prop :=
  0 <= i /\ nth_error vs (Z.to_nat i) = Some v.

(** The entry a possibly negative index selects: [-n] counts from the end. *)
Definition wrapped_vertex_at (vs : list pyval) (i : Z) (v : pyval) : Prop :=
  if i <? 0 then nth_error vs (Z.to_nat (vlen vs + i)) = Some v
  else nth_error vs (Z.to_nat i) = Some v.

(** The dereferencer written as the recursion its nested loops unroll:
    [deep d f] applies [f] under [d] list levels. *)
Fixpoint deep (d : nat) (f : pyval -> result pyval) (v : pyval) : result pyval :=
  match d with
  | O => f v
  | S d' => list_for v (deep d' f)
  end.

Definition out_of_range : pyerr := IndexError "list index out of range".

(** The vertex table and the boundary of the specification's example. *)
Definition triangle_vertices : list pyval :=
  [PList [PInt 0; PInt 0; PInt 0]; PList [PInt 1; PInt 0; PInt 0];
   PList [PInt 0; PInt 1; PInt 0]].

Definition triangle_boundary : pyval :=
  PList [PList [PList [PInt 0; PInt 1; PInt 2; PInt 0]]].

(** ** Semantic values and their occurrences *)

(** [enumerate(l)] from index [i]. *)
Fixpoint enum_from {A : Type} (i : nat) (l : list A) : list (nat * A) :=
  match l with
  | [] => []
  | x :: l' => (i, x) :: enum_from (S i) l'
  end.

(** The integer leaves below [v] with their addresses, visited in
    ascending index order at every level, outer index first; [prefix] is
    the address of [v] and [d] the list levels [v] may still open. A null
    leaf is passed over. *)
Fixpoint leaves (d : nat) (prefix : address) (v : pyval) : list (address * Z) :=
  match v with
  | PInt id => [(prefix, id)]
  | PList l =>
      match d with
      | O => []
      | S d' => flat_map (fun ix => leaves d' (prefix ++ [fst ix]) (snd ix)) (enum_from 0 l)
      end
  | _ => []
  end.

(** The occurrences of identifiers in a values array, at most three deep. *)
Definition occurrences (values : pyval) : list (address * Z) := leaves 3 [] values.

(** The addresses at which identifier [id] occurs, in traversal order. *)
Definition addresses_of (id : Z) (occ : list (address * Z)) : list address :=
  map fst (filter (fun p => snd p =? id) occ).

(** [values_ok d v]: [v] is an identifier, a null, or a list opening at
    most [d] levels of such values. *)
Fixpoint values_ok (d : nat) (v : pyval) : bool :=
  match v with
  | PNone | PInt _ => true
  | PList l =>
      match d with
      | O => false
      | S d' => forallb (values_ok d') l
      end
  | _ => false
  end.

(** [values_tree d v]: as [values_ok], but a list at level [d] holds
    anything. *)
Fixpoint values_tree (d : nat) (v : pyval) : bool :=
  match v with
  | PNone | PInt _ => true
  | PList l =>
      match d with
      | O => true
      | S d' => forallb (values_tree d') l
      end
  | _ => false
  end.

(** [list_at_level d v]: a list sits exactly [d] levels below [v]. *)
Fixpoint list_at_level (d : nat) (v : pyval) : bool :=
  match d with
  | O => isinstance_list v
  | S d' => match v with PList l => existsb (list_at_level d') l | _ => false end
  end.

(** Recording one occurrence in the index, as [record_address] does for an
    integer key. *)
Definition add_occurrence (st : SurfaceIndex) (p : address * Z) : SurfaceIndex :=
  let k := KInt (snd p) in
  if negb (assoc_mem pykey_eqb k st)
  then assoc_set pykey_eqb k [fst p] st
  else assoc_update pykey_eqb k (fun a => a ++ [fst p]) st.

(** The three loops of [_index_surface_boundaries], innermost first. *)
Definition index_k (i j : nat) (k : nat) (kdx : pyval) (surface_idx : SurfaceIndex)
  : result SurfaceIndex :=
  if isinstance_list kdx then Raise SemanticSurface.too_deep
  else if negb (is_None kdx)
       then SemanticSurface.record_address kdx [i; j; k]%nat surface_idx
       else Ok surface_idx.

Definition index_j (i : nat) (j : nat) (jdx : pyval) (surface_idx : SurfaceIndex)
  : result SurfaceIndex :=
  if negb (is_None jdx) then
    if isinstance_list jdx then
      ks <- py_iter jdx ;; for_enum (index_k i j) ks 0%nat surface_idx
    else SemanticSurface.record_address jdx [i; j]%nat surface_idx
  else Ok surface_idx.

Definition index_i (i : nat) (idx : pyval) (surface_idx : SurfaceIndex)
  : result SurfaceIndex :=
  if negb (is_None idx) then
    if isinstance_list idx then
      js <- py_iter idx ;; for_enum (index_j i) js 0%nat surface_idx
    else SemanticSurface.record_address idx [i]%nat surface_idx
  else Ok surface_idx.

(** The value under [k'] after one more occurrence of [k] is recorded. *)
Definition appended (k k' : pykey) (a : address) (old : option (list address))
  : option (list address) :=
  if pykey_eqb k' k
  then Some (match old with Some l => l ++ [a] | None => [a] end)
  else old.

(** The value under a key once further addresses [l] are appended. *)
Definition extended (old : option (list address)) (l : list address)
  : option (list address) :=
  match l with
  | [] => old
  | _ => Some (match old with Some l0 => l0 ++ l | None => l end)
  end.

(** All occurrences [ps] recorded in turn, starting from the index [st]. *)
Definition record_all (ps : list (address * Z)) (st : SurfaceIndex) : SurfaceIndex :=
  fold_left add_occurrence ps st.

(** ** Addresses into a boundary *)

(** An address as the Python list of its components. *)
Definition py_address (a : list Z) : pyval := PList (map PInt a).

(** Indexing successively into [b] with each component of an address. *)
Fixpoint index_path (b : pyval) (a : list Z) : result pyval :=
  match a with
  | [] => Ok b
  | i :: a' => x <- py_getitem b (PInt i) ;; index_path x a'
  end.

(** An address of one, two or three components. *)
Definition address_len_ok {A : Type} (a : list A) : bool :=
  match a with
  | [_] | [_; _] | [_; _; _] => true
  | _ => false
  end.

(** [reaches b a e]: [e] is the element of the nested list [b] at the
    position [a]. *)
Inductive reaches : pyval -> address -> pyval -> Prop :=
| reaches_here (b : pyval) : reaches b [] b
| reaches_step (l : list pyval) (i : nat) (x : pyval) (a : address) (e : pyval) :
    nth_error l i = Some x -> reaches x a e -> reaches (PList l) (i :: a) e.

(** The resolver of the specification: the elements at the addresses, in
    the order the addresses are listed. *)
Definition resolve (b : pyval) (addrs : list (list Z)) : result pyval :=
  ys <- mapM (index_path b) addrs ;; Ok (PList ys).

Definition nat_address (a : address) : list Z := map Z.of_nat a.

(** The dereferenced boundary of the specification's MultiSurface example. *)
Definition triangle_surface : pyval :=
  PList [PList [PList [PInt 0; PInt 0; PInt 0]; PList [PInt 1; PInt 0; PInt 0];
                PList [PInt 0; PInt 1; PInt 0]; PList [PInt 0; PInt 0; PInt 0]]].

(** ** Semantics objects of the examples *)

(** Three copies of the triangle, one surface each. *)
Definition three_surfaces : pyval :=
  PList [PList [PList [PInt 0; PInt 1; PInt 2; PInt 0]];
         PList [PList [PInt 0; PInt 1; PInt 2; PInt 0]];
         PList [PList [PInt 0; PInt 1; PInt 2; PInt 0]]].

(** [{"values": [0, 1, 0],
      "surfaces": [{"type": "WallSurface"}, {"type": "RoofSurface"}]}] *)
Definition wall_roof_semantics : pyval :=
  PDict [("values", PList [PInt 0; PInt 1; PInt 0]);
         ("surfaces", PList [PDict [("type", PStr "WallSurface")];
                             PDict [("type", PStr "RoofSurface")]])].

(** A hierarchy of surfaces whose first entry has a parent and a child:
    [{"values": [0, 1, 2],
      "surfaces": [{"type": "WallSurface", "children": [2], "parent": 1},
                   {"type": "WallSurface", "children": [0]},
                   {"type": "Door", "parent": 0}]}] *)
Definition hierarchy_semantics : pyval :=
  PDict [("values", PList [PInt 0; PInt 1; PInt 2]);
         ("surfaces",
          PList [PDict [("type", PStr "WallSurface"); ("children", PList [PInt 2]);
                        ("parent", PInt 1)];
                 PDict [("type", PStr "WallSurface"); ("children", PList [PInt 0])];
                 PDict [("type", PStr "Door"); ("parent", PInt 0)]])].

(** ** City objects of a type *)

(** The CityObjects of [l] whose type is [s] up to letter case, that is
    whose lowered type is the lowered [s], in order. *)
Definition of_type (str_lower : lowering) (s : string) (l : list CityObject.t)
  : list CityObject.t :=
  filter (fun co => String.eqb (str_lower (CityObject.type co)) (str_lower s)) l.

(** A generator that has run to its end. *)
Definition exhausted (str_lower : lowering) (s : string) : genexpr :=
  mk_genexpr [] (str_lower s).

Definition a_building : CityObject.t :=
  CityObject.mk (PStr "id-1") "Building" PNone.

Definition a_road : CityObject.t :=
  CityObject.mk (PStr "id-2") "Road" PNone.

Definition small_city : CityModel.t := CityModel.mk [a_building; a_road].

(** ** The order of addresses *)

(** The lexicographic order on addresses: a proper prefix comes first,
    otherwise the first component that differs decides. *)
Inductive lex_lt : address -> address -> Prop :=
| lex_shorter (i : nat) (b : address) : lex_lt [] (i :: b)
| lex_head (i j : nat) (a b : address) : (i < j)%nat -> lex_lt (i :: a) (j :: b)
| lex_tail (i : nat) (a b : address) : lex_lt a b -> lex_lt (i :: a) (i :: b).

(** ** Values arrays laid over a boundary *)

Fixpoint forall2b {A B : Type} (p : A -> B -> bool) (l : list A) (m : list B) : bool :=
  match l, m with
  | [], [] => true
  | x :: l', y :: m' => p x y && forall2b p l' m'
  | _, _ => false
  end.

(** [congruentb d v b]: the values [v], at most [d] levels deep, mirror the
    boundary [b]: wherever [v] is a list, [b] is a list of the same length
    whose elements the elements of [v] mirror. *)
Fixpoint congruentb (d : nat) (v b : pyval) : bool :=
  match v with
  | PNone | PInt _ => true
  | PList l =>
      match d, b with
      | S d', PList bl => forall2b (congruentb d') l bl
      | _, _ => false
      end
  | _ => false
  end.

(** The elements of the boundary [b] that the values [v] mark with the
    identifier [id], in ascending index order. *)
Fixpoint select (d : nat) (id : Z) (v b : pyval) : list pyval :=
  match v with
  | PInt z => if z =? id then [b] else []
  | PList l =>
      match d, b with
      | S d', PList bl =>
          flat_map (fun p => select d' id (fst p) (snd p)) (combine l bl)
      | _, _ => []
      end
  | _ => []
  end.

(** ** Boundaries of the wrong depth *)

(** [all_at p d v]: [v] is nested lists of [d] levels and every value at
    level [d] satisfies [p]. *)
Fixpoint all_at (p : pyval -> bool) (d : nat) (v : pyval) : bool :=
  match d with
  | O => p v
  | S d' => match v with PList l => forallb (all_at p d') l | _ => false end
  end.

(** [some_at q d v]: some value at level [d] of [v] satisfies [q]. *)
Fixpoint some_at (q : pyval -> bool) (d : nat) (v : pyval) : bool :=
  match d with
  | O => q v
  | S d' => match v with PList l => existsb (some_at q d') l | _ => false end
  end.

(** A list, or an index the vertex table accepts. *)
Definition index_or_list (vs : list pyval) (v : pyval) : bool :=
  match v with
  | PInt i => in_wrapped_range vs i
  | PList _ => true
  | _ => false
  end.

Definition list_as_index : pyerr :=
  TypeError "list indices must be integers or slices, not list".

Definition int_not_iterable : pyerr :=
  TypeError "'int' object is not iterable".

(** One round of the comprehension of [_get_surface_boundaries]. *)
Definition resolve_round (boundaries i : pyval) : result pyval :=
  n1 <- py_len i ;;
  if n1 =? 1 then
    i0 <- py_getitem i (PInt 0) ;;
    py_getitem boundaries i0
  else
    n2 <- py_len i ;;
    if n2 =? 2 then
      i0 <- py_getitem i (PInt 0) ;;
      b0 <- py_getitem boundaries i0 ;;
      i1 <- py_getitem i (PInt 1) ;;
      py_getitem b0 i1
    else
      i0 <- py_getitem i (PInt 0) ;;
      b0 <- py_getitem boundaries i0 ;;
      i1 <- py_getitem i (PInt 1) ;;
      b1 <- py_getitem b0 i1 ;;
      i2 <- py_getitem i (PInt 2) ;;
      py_getitem b1 i2.

(** An address of three components or more. *)
Definition address_long (a : list Z) : bool :=
  match a with
  | _ :: _ :: _ :: _ => true
  | _ => false
  end.

(** The identifiers of [zs] in the order in which each is met first,
    leaving out those already in [seen]. *)
Fixpoint first_seen (seen zs : list Z) : list Z :=
  match zs with
  | [] => []
  | z :: zs' =>
      if existsb (Z.eqb z) seen then first_seen seen zs'
      else z :: first_seen (seen ++ [z]) zs'
  end.

(** ** The first leaf beyond the table *)

(** The integer leaves at level [d] of [v], in traversal order. *)
Fixpoint int_leaves (d : nat) (v : pyval) : list Z :=
  match d with
  | O => match v with PInt i => [i] | _ => [] end
  | S d' => match v with PList l => flat_map (int_leaves d') l | _ => [] end
  end.

Definition cannot_fit : pyerr :=
  IndexError "cannot fit 'int' into an index-sized integer".

(** The exception of subscripting a list with an integer beyond it. *)
Definition beyond_error (i : Z) : pyerr :=
  if fits_index i then out_of_range else cannot_fit.

(** * Proofs *)

(** ** The error monad and its loops *)

Lemma mapM_Forall2 {A B : Type} (f : A -> result B) (Q : A -> B -> Prop) (l : list A) :
  Forall (fun x => exists y, f x = Ok y /\ Q x y) l ->
  exists ys, mapM f l = Ok ys /\ Forall2 Q l ys.
Proof.
  induction 1 as [| x l [y [Hy HQ]] _ [ys [Hys HF]]].
  - exists []. split; [reflexivity | constructor].
  - exists (y :: ys). cbn. rewrite Hy. cbn. rewrite Hys. cbn.
    split; [reflexivity | now constructor].
Qed.

Lemma mapM_ext {A B : Type} (f g : A -> result B) (l : list A) :
  (forall x, In x l -> f x = g x) -> mapM f l = mapM g l.
Proof.
  induction l as [| x l IH]; intros H; cbn; [reflexivity |].
  rewrite (H x (or_introl eq_refl)), IH; [reflexivity |].
  intros y Hy. apply H. now right.
Qed.

(** When every element either succeeds or raises [e], so does the loop,
    and it raises as soon as some element does. *)
Lemma mapM_raises {A B : Type} (f : A -> result B) (e : pyerr) (bad : A -> bool) (l : list A) :
  Forall (fun x => (bad x = true -> f x = Raise e) /\
                   (bad x = false -> exists y, f x = Ok y)) l ->
  (existsb bad l = true -> mapM f l = Raise e) /\
  (existsb bad l = false -> exists ys, mapM f l = Ok ys).
Proof.
  induction 1 as [| x l [Hb Hg] _ [IHb IHg]]; cbn.
  - split; [discriminate | intros _; now exists []].
  - destruct (bad x) eqn:Ex; cbn.
    + split; [intros _ | discriminate]. now rewrite Hb.
    + destruct (Hg eq_refl) as [y Hy]. rewrite Hy. cbn. split; intros Hl.
      * now rewrite (IHb Hl).
      * destruct (IHg Hl) as [ys Hys]. rewrite Hys. cbn. now exists (y :: ys).
Qed.

(** ** Boundary dereferencing *)

(** The seven branches of [_dereference_boundary] are [deep] at the depth
    of the kind. *)
Lemma dereference_boundary_deep (k : GeometryKind) (s : string) (boundary vertices : pyval) :
  names_kind s k ->
  truthy boundary = true ->
  Geometry._dereference_boundary (PStr s) boundary vertices
  = deep (kind_depth k) (py_getitem vertices) boundary.
Proof.
  unfold names_kind, Geometry._dereference_boundary. intros Hs Ht.
  rewrite Ht. cbn [negb py_lower bind]. rewrite Hs.
  destruct k; reflexivity.
Qed.

Lemma deep_shaped (f : pyval -> result pyval) (p : Z -> bool) (R : Z -> pyval -> Prop) :
  (forall i, p i = true -> exists v, f (PInt i) = Ok v /\ R i v) ->
  forall d raw, leaves_ok p d raw = true ->
  exists out, deep d f raw = Ok out /\ shaped R d raw out.
Proof.
  intros Hf. induction d as [| d IH]; intros raw Hraw; cbn in *.
  - destruct raw; try discriminate.
    destruct (Hf z Hraw) as [v [Hv HR]]. exists v. split; [assumption |].
    now exists z.
  - destruct raw; try discriminate.
    rewrite forallb_forall in Hraw.
    destruct (mapM_Forall2 (deep d f) (shaped R d) l) as [ys [Hys HF]].
    + apply Forall_forall. intros x Hx. apply IH. now apply Hraw.
    + exists (PList ys). unfold list_for. cbn. rewrite Hys. cbn.
      split; [reflexivity |]. now exists l, ys.
Qed.

Lemma shaped_coords (vs : list pyval) (R : Z -> pyval -> Prop) :
  (forall i v, R i v -> In v vs) ->
  forall d raw out, shaped R d raw out -> coords_at vs d out.
Proof.
  intros HR. induction d as [| d IH]; intros raw out H; cbn in *.
  - destruct H as [i [_ Hi]]. now apply (HR i).
  - destruct H as [l [l' [_ [-> HF]]]]. exists l'. split; [reflexivity |].
    clear raw. induction HF; constructor; eauto.
Qed.

Lemma seq_index_in_range (vs : list pyval) (i : Z) :
  in_range vs i = true ->
  exists v, seq_index vs i = Some v /\ vertex_at vs i v.
Proof.
  unfold in_range, vlen, seq_index, vertex_at. intros H. rewrite H.
  apply andb_prop in H. destruct H as [H0 Hn].
  apply Z.leb_le in H0. apply Z.ltb_lt in Hn.
  destruct (nth_error vs (Z.to_nat i)) as [v |] eqn:E.
  - exists v. auto.
  - apply nth_error_None in E. lia.
Qed.

Lemma seq_index_wrapped (vs : list pyval) (i : Z) :
  in_wrapped_range vs i = true ->
  exists v, seq_index vs i = Some v /\ wrapped_vertex_at vs i v.
Proof.
  unfold in_wrapped_range, vlen, seq_index, wrapped_vertex_at. intros H.
  apply andb_prop in H. destruct H as [H0 Hn].
  apply Z.leb_le in H0. apply Z.ltb_lt in Hn.
  destruct (i <? 0) eqn:Ei.
  - apply Z.ltb_lt in Ei.
    replace (0 <=? i) with false by (symmetry; apply Z.leb_gt; lia).
    cbn [andb]. replace (- Z.of_nat (Datatypes.length vs) <=? i) with true
      by (symmetry; apply Z.leb_le; lia).
    cbn [andb].
    destruct (nth_error vs (Z.to_nat (Z.of_nat (Datatypes.length vs) + i))) as [v |] eqn:E.
    + exists v. auto.
    + apply nth_error_None in E. lia.
  - apply Z.ltb_ge in Ei.
    replace (0 <=? i) with true by (symmetry; apply Z.leb_le; lia).
    replace (i <? Z.of_nat (Datatypes.length vs)) with true
      by (symmetry; apply Z.ltb_lt; lia).
    cbn [andb].
    destruct (nth_error vs (Z.to_nat i)) as [v |] eqn:E.
    + exists v. auto.
    + apply nth_error_None in E. lia.
Qed.

Lemma seq_index_beyond (vs : list pyval) (i : Z) :
  beyond_range vs i = true -> seq_index vs i = None.
Proof.
  unfold beyond_range, vlen, seq_index. intros H.
  apply orb_prop in H.
  destruct H as [H | H]; [apply Z.ltb_lt in H | apply Z.leb_le in H].
  - replace (0 <=? i) with false by (symmetry; apply Z.leb_gt; lia).
    replace (- Z.of_nat (Datatypes.length vs) <=? i) with false
      by (symmetry; apply Z.leb_gt; lia).
    reflexivity.
  - replace (i <? Z.of_nat (Datatypes.length vs)) with false
      by (symmetry; apply Z.ltb_ge; lia).
    rewrite andb_false_r.
    replace (i <? 0) with false by (symmetry; apply Z.ltb_ge; lia).
    now rewrite andb_false_r.
Qed.

Lemma seq_index_not_beyond (vs : list pyval) (i : Z) :
  beyond_range vs i = false -> exists v, seq_index vs i = Some v.
Proof.
  intros H. destruct (seq_index_wrapped vs i) as [v [Hv _]]; [| now exists v].
  unfold beyond_range, in_wrapped_range in *.
  apply orb_false_elim in H. destruct H as [H1 H2].
  apply Z.ltb_ge in H1. apply Z.leb_gt in H2.
  apply andb_true_intro. split; [apply Z.leb_le | apply Z.ltb_lt]; lia.
Qed.

Lemma index_error_list (i : Z) : index_error "list" i = beyond_error i.
Proof. unfold index_error, beyond_error. now destruct (fits_index i). Qed.

Lemma find_app {A : Type} (p : A -> bool) (l1 l2 : list A) :
  find p (l1 ++ l2) = match find p l1 with Some x => Some x | None => find p l2 end.
Proof.
  induction l1 as [| x l1 IH]; cbn; [reflexivity |]. now destruct (p x).
Qed.

(** A loop over elements with integer leaves [lv x] that fails exactly on
    a bad leaf fails with the error of the first bad leaf of all. *)
Lemma mapM_first_bad {A B : Type} (f : A -> result B) (err : Z -> pyerr)
      (bad : Z -> bool) (lv : A -> list Z) (l : list A) :
  Forall (fun x => match find bad (lv x) with
                   | Some i => f x = Raise (err i)
                   | None => exists y, f x = Ok y
                   end) l ->
  match find bad (flat_map lv l) with
  | Some i => mapM f l = Raise (err i)
  | None => exists ys, mapM f l = Ok ys
  end.
Proof.
  induction 1 as [| x l Hx _ IH]; cbn.
  - now exists [].
  - rewrite find_app. destruct (find bad (lv x)) as [i |].
    + now rewrite Hx.
    + destruct Hx as [y ->]. cbn.
      destruct (find bad (flat_map lv l)) as [i |].
      * now rewrite IH.
      * destruct IH as [ys ->]. cbn. now exists (y :: ys).
Qed.

(** On a boundary of integer leaves the only exception is the one of list
    indexing, raised for the first leaf in traversal order that lies
    beyond the table. *)
Lemma deep_first_beyond (vs : list pyval) :
  forall d raw, leaves_ok (fun _ => true) d raw = true ->
  match find (beyond_range vs) (int_leaves d raw) with
  | Some i => deep d (py_getitem (PList vs)) raw = Raise (beyond_error i)
  | None => exists out, deep d (py_getitem (PList vs)) raw = Ok out
  end.
Proof.
  induction d as [| d IH]; intros raw Hraw; cbn in *.
  - destruct raw; try discriminate. cbn.
    destruct (beyond_range vs z) eqn:H.
    + now rewrite (seq_index_beyond _ _ H), index_error_list.
    + destruct (seq_index_not_beyond _ _ H) as [v ->]. now exists v.
  - destruct raw; try discriminate.
    rewrite forallb_forall in Hraw.
    pose proof (mapM_first_bad (deep d (py_getitem (PList vs))) beyond_error
                  (beyond_range vs) (int_leaves d) l) as Hm.
    unfold list_for. cbn [py_iter bind].
    destruct (find (beyond_range vs) (flat_map (int_leaves d) l)) as [i |].
    + rewrite Hm; [reflexivity |].
      apply Forall_forall. intros x Hx. apply IH. now apply Hraw.
    + destruct Hm as [ys ->]; [| cbn; now exists (PList ys)].
      apply Forall_forall. intros x Hx. apply IH. now apply Hraw.
Qed.

Lemma some_leaf_In (q : Z -> bool) :
  forall d v, some_leaf q d v = true ->
              exists i, In i (int_leaves d v) /\ q i = true.
Proof.
  induction d as [| d IH]; intros v H; cbn in *.
  - destruct v; try discriminate. exists z. split; [now left | assumption].
  - destruct v; try discriminate.
    apply existsb_exists in H. destruct H as [x [Hx Hq]].
    destruct (IH x Hq) as [i [Hi Hqi]]. exists i. split; [| assumption].
    apply in_flat_map. now exists x.
Qed.

Lemma leaves_ok_In (p : Z -> bool) :
  forall d v i, leaves_ok p d v = true -> In i (int_leaves d v) -> p i = true.
Proof.
  induction d as [| d IH]; intros v i H Hi; cbn in *.
  - destruct v; try discriminate. destruct Hi as [<- | []]. assumption.
  - destruct v; try discriminate. rewrite forallb_forall in H.
    apply in_flat_map in Hi. destruct Hi as [x [Hx Hi]].
    apply (IH x); [now apply H | assumption].
Qed.

Lemma some_leaf_find (q : Z -> bool) (d : nat) (v : pyval) :
  some_leaf q d v = true -> exists i, find q (int_leaves d v) = Some i.
Proof.
  intros H. destruct (some_leaf_In q d v H) as [i [Hi Hq]].
  destruct (find q (int_leaves d v)) as [j |] eqn:E; [now exists j |].
  rewrite (find_none _ _ E i Hi) in Hq. discriminate.
Qed.

Lemma some_leaf_truthy (q : Z -> bool) (d : nat) (raw : pyval) :
  some_leaf q (S d) raw = true -> truthy raw = true.
Proof.
  cbn. destruct raw; try discriminate. destruct l; [discriminate | reflexivity].
Qed.

(** C2. For each of the seven kinds, named in any letter case, and every
    non-empty raw boundary of the kind's nesting depth whose leaves are
    indices within the vertex table, dereferencing returns a boundary of
    the same nesting in which each leaf is the table entry at the original
    index; the MultiSurface triangle of the specification dereferences to
    its four coordinates. *)
Theorem dereference_boundary_in_range :
  (forall (k : GeometryKind) (s : string) (boundary : pyval) (vs : list pyval),
      names_kind s k ->
      truthy boundary = true ->
      leaves_ok (in_range vs) (kind_depth k) boundary = true ->
      exists out,
        Geometry._dereference_boundary (PStr s) boundary (PList vs) = Ok out /\
        shaped (vertex_at vs) (kind_depth k) boundary out /\
        coords_at vs (kind_depth k) out) /\
  Geometry._dereference_boundary (PStr "MultiSurface") triangle_boundary
    (PList triangle_vertices)
  = Ok (PList [PList [PList [PList [PInt 0; PInt 0; PInt 0];
                             PList [PInt 1; PInt 0; PInt 0];
                             PList [PInt 0; PInt 1; PInt 0];
                             PList [PInt 0; PInt 0; PInt 0]]]]).
Proof.
  split; [| reflexivity].
  intros k s boundary vs Hs Ht Hl.
  rewrite (dereference_boundary_deep k s boundary (PList vs) Hs Ht).
  destruct (deep_shaped (py_getitem (PList vs)) (in_range vs) (vertex_at vs))
    with (d := kind_depth k) (raw := boundary) as [out [Hout Hsh]]; [| assumption |].
  - intros i Hi. destruct (seq_index_in_range vs i Hi) as [v [Hv Hat]].
    exists v. cbn. now rewrite Hv.
  - exists out. repeat split; [assumption | assumption |].
    apply (shaped_coords vs (vertex_at vs)) with (raw := boundary); [| assumption].
    intros i v [_ Hn]. now apply nth_error_In in Hn.
Qed.

Lemma dereference_boundary_in_range_witness :
  exists out,
    Geometry._dereference_boundary (PStr "SOLID")
      (PList [PList [PList [PList [PInt 0; PInt 2; PInt 1]]]])
      (PList triangle_vertices) = Ok out /\
    shaped (vertex_at triangle_vertices) (kind_depth Solid)
      (PList [PList [PList [PList [PInt 0; PInt 2; PInt 1]]]]) out /\
    coords_at triangle_vertices (kind_depth Solid) out.
Proof.
  apply (proj1 dereference_boundary_in_range Solid "SOLID"); reflexivity.
Defined.

(** C5, as the code has it. For each of the seven kinds and every raw
    boundary of the kind's depth with integer leaves, if some leaf is at or
    above the table's length, or below minus that length, dereferencing
    returns no boundary: it raises the [IndexError] of list indexing for
    the first such leaf in traversal order, whose message is that the
    index is out of range, or, for a leaf outside the machine word, that
    it does not fit an index-sized integer; the exception carries
    neither the leaf nor its address. *)
Theorem dereference_boundary_beyond_range
        (k : GeometryKind) (s : string) (boundary : pyval) (vs : list pyval) :
  names_kind s k ->
  leaves_ok (fun _ => true) (kind_depth k) boundary = true ->
  some_leaf (beyond_range vs) (kind_depth k) boundary = true ->
  (exists i,
      find (beyond_range vs) (int_leaves (kind_depth k) boundary) = Some i /\
      Geometry._dereference_boundary (PStr s) boundary (PList vs)
      = Raise (beyond_error i)) /\
  (leaves_ok fits_index (kind_depth k) boundary = true ->
   Geometry._dereference_boundary (PStr s) boundary (PList vs) = Raise out_of_range).
Proof.
  intros Hs Hl Hb.
  rewrite (dereference_boundary_deep k s boundary (PList vs) Hs
             (some_leaf_truthy _ _ _ Hb)).
  destruct (some_leaf_find _ _ _ Hb) as [i Hi].
  pose proof (deep_first_beyond vs (kind_depth k) boundary Hl) as Hd.
  rewrite Hi in Hd. split.
  - now exists i.
  - intros Hfit. rewrite Hd. unfold beyond_error.
    apply find_some in Hi. destruct Hi as [Hin _].
    now rewrite (leaves_ok_In fits_index _ _ _ Hfit Hin).
Qed.

Lemma dereference_boundary_beyond_range_witness :
  (exists i,
      find (beyond_range triangle_vertices)
        (int_leaves (kind_depth MultiLineString)
           (PList [PList [PInt 0; PInt 1];
                   PList [PInt 9223372036854775808; PInt 3]])) = Some i /\
      Geometry._dereference_boundary (PStr "MultiLineString")
        (PList [PList [PInt 0; PInt 1]; PList [PInt 9223372036854775808; PInt 3]])
        (PList triangle_vertices) = Raise (beyond_error i)) /\
  Geometry._dereference_boundary (PStr "MultiLineString")
    (PList [PList [PInt 0; PInt 1]; PList [PInt 2; PInt 3]])
    (PList triangle_vertices) = Raise out_of_range.
Proof.
  split.
  - apply (dereference_boundary_beyond_range MultiLineString); reflexivity.
  - apply (dereference_boundary_beyond_range MultiLineString); reflexivity.
Defined.

(** C5 as stated fails: the exception is the same value whether index 3 at
    address [0] or index 7 at address [1] is the offender, so it identifies
    neither; and the leaf -1, although not an index of the table, raises
    nothing. *)
Lemma out_of_range_error_is_anonymous :
  Geometry._dereference_boundary (PStr "MultiPoint") (PList [PInt 3])
    (PList triangle_vertices) = Raise (IndexError "list index out of range") /\
  Geometry._dereference_boundary (PStr "MultiPoint") (PList [PInt 0; PInt 7])
    (PList triangle_vertices) = Raise (IndexError "list index out of range") /\
  Geometry._dereference_boundary (PStr "MultiPoint") (PList [PInt (-1)])
    (PList triangle_vertices) = Ok (PList [PList [PInt 0; PInt 1; PInt 0]]).
Proof. repeat split. Qed.

(** C6. Whatever the kind and the vertex table, an empty or absent raw
    boundary dereferences to the empty list, without an exception. *)
Theorem dereference_boundary_empty (btype vertices : pyval) :
  Geometry._dereference_boundary btype (PList []) vertices = Ok (PList []) /\
  Geometry._dereference_boundary btype PNone vertices = Ok (PList []).
Proof. split; reflexivity. Qed.

(** C9. For a non-empty raw boundary and a kind string that names none of
    the seven kinds in any letter case, dereferencing raises nothing and
    returns [None]; a Geometry built from it has [None] as its
    boundaries. *)
Theorem dereference_boundary_unknown_kind
        (s : string) (boundary vertices : pyval) :
  truthy boundary = true ->
  (forall k, ~ names_kind s k) ->
  Geometry._dereference_boundary (PStr s) boundary vertices = Ok PNone /\
  (forall lod, Geometry.__init__ (PStr s) lod boundary PNone vertices
               = Ok (Geometry.mk (PStr s) lod PNone [])) /\
  (forall lod semantics_obj g,
      Geometry.__init__ (PStr s) lod boundary semantics_obj vertices = Ok g ->
      Geometry.boundaries g = PNone).
Proof.
  intros Ht Hk.
  assert (H : Geometry._dereference_boundary (PStr s) boundary vertices = Ok PNone).
  { unfold Geometry._dereference_boundary. rewrite Ht. cbn [negb py_lower bind].
    assert (Hn : forall k, String.eqb (lower s) (lower (kind_name k)) = false)
      by (intros k; apply String.eqb_neq, Hk).
    pose proof (Hn MultiPoint) as H1. pose proof (Hn MultiLineString) as H2.
    pose proof (Hn MultiSurface) as H3. pose proof (Hn CompositeSurface) as H4.
    pose proof (Hn Solid) as H5. pose proof (Hn MultiSolid) as H6.
    pose proof (Hn CompositeSolid) as H7.
    change (lower (kind_name MultiPoint)) with "multipoint" in H1.
    change (lower (kind_name MultiLineString)) with "multilinestring" in H2.
    change (lower (kind_name MultiSurface)) with "multisurface" in H3.
    change (lower (kind_name CompositeSurface)) with "compositesurface" in H4.
    change (lower (kind_name Solid)) with "solid" in H5.
    change (lower (kind_name MultiSolid)) with "multisolid" in H6.
    change (lower (kind_name CompositeSolid)) with "compositesolid" in H7.
    now rewrite H1, H2, H3, H4, H5, H6, H7. }
  split; [assumption |]. split.
  - intros lod. unfold Geometry.__init__. now rewrite H.
  - intros lod sem g. unfold Geometry.__init__. rewrite H. cbn [bind].
    destruct (Geometry._dereference_surfaces sem); cbn; [| discriminate].
    intros E. injection E as <-. reflexivity.
Qed.

Lemma dereference_boundary_unknown_kind_witness :
  Geometry._dereference_boundary (PStr "Polygon") (PList [PInt 0]) (PList triangle_vertices)
  = Ok PNone.
Proof.
  apply (dereference_boundary_unknown_kind "Polygon" (PList [PInt 0])
           (PList triangle_vertices)).
  - reflexivity.
  - intros k; destruct k; discriminate.
Defined.

(** C10. Vertex lookup has no lower bound check: the index [-n] with
    [1 <= n <= len] selects the entry at [len - n]; and for each kind a
    boundary whose leaves lie in [-len, len) dereferences without an
    exception, a negative leaf [i] giving the entry at [len + i]. *)
Theorem dereference_boundary_negative_index :
  (forall (vs : list pyval) (n : Z),
      1 <= n <= vlen vs ->
      exists v, nth_error vs (Z.to_nat (vlen vs - n)) = Some v /\
                py_getitem (PList vs) (PInt (- n)) = Ok v) /\
  (forall (k : GeometryKind) (s : string) (boundary : pyval) (vs : list pyval),
      names_kind s k ->
      truthy boundary = true ->
      leaves_ok (in_wrapped_range vs) (kind_depth k) boundary = true ->
      exists out,
        Geometry._dereference_boundary (PStr s) boundary (PList vs) = Ok out /\
        shaped (wrapped_vertex_at vs) (kind_depth k) boundary out).
Proof.
  split.
  - intros vs n Hn.
    destruct (seq_index_wrapped vs (- n)) as [v [Hv Hw]].
    + unfold in_wrapped_range. apply andb_true_intro.
      split; [apply Z.leb_le | apply Z.ltb_lt]; lia.
    + exists v. unfold wrapped_vertex_at in Hw.
      replace (- n <? 0) with true in Hw by (symmetry; apply Z.ltb_lt; lia).
      replace (vlen vs + - n) with (vlen vs - n) in Hw by lia.
      split; [assumption |]. cbn. now rewrite Hv.
  - intros k s boundary vs Hs Ht Hl.
    rewrite (dereference_boundary_deep k s boundary (PList vs) Hs Ht).
    apply (deep_shaped (py_getitem (PList vs)) (in_wrapped_range vs)); [| assumption].
    intros i Hi. destruct (seq_index_wrapped vs i Hi) as [v [Hv Hat]].
    exists v. cbn. now rewrite Hv.
Qed.

Lemma dereference_boundary_negative_index_witness :
  (exists v, nth_error triangle_vertices (Z.to_nat (vlen triangle_vertices - 1)) = Some v /\
             py_getitem (PList triangle_vertices) (PInt (- 1)) = Ok v) /\
  (exists out,
      Geometry._dereference_boundary (PStr "multipoint") (PList [PInt (-1); PInt (-3)])
        (PList triangle_vertices) = Ok out /\
      shaped (wrapped_vertex_at triangle_vertices) (kind_depth MultiPoint)
        (PList [PInt (-1); PInt (-3)]) out).
Proof.
  split.
  - apply (proj1 dereference_boundary_negative_index triangle_vertices 1).
    unfold vlen; cbn; lia.
  - apply (proj2 dereference_boundary_negative_index MultiPoint "multipoint");
      reflexivity.
Defined.

(** ** The surface index *)

Lemma index_loops (l : list pyval) :
  truthy (PList l) = true ->
  SemanticSurface._index_surface_boundaries (PList l) = for_enum index_i l 0%nat [].
Proof.
  destruct l as [| x l]; [discriminate |]. intros _.
  unfold SemanticSurface._index_surface_boundaries.
  cbn [truthy negb py_len bind].
  destruct (Z.of_nat (Datatypes.length (x :: l)) =? 0) eqn:E.
  - apply Z.eqb_eq in E. cbn [Datatypes.length] in E. lia.
  - reflexivity.
Qed.

Lemma pykey_eqb_eq (a b : pykey) : pykey_eqb a b = true <-> a = b.
Proof.
  destruct a, b; cbn; try (split; [discriminate | intros H; discriminate H]);
    try (split; reflexivity).
  - rewrite Z.eqb_eq. split; [intros -> | intros [= ->]]; reflexivity.
  - rewrite String.eqb_eq. split; [intros -> | intros [= ->]]; reflexivity.
Qed.

Lemma pykey_eqb_refl (a : pykey) : pykey_eqb a a = true.
Proof. now apply pykey_eqb_eq. Qed.

Lemma KInt_eqb (a b : Z) : pykey_eqb (KInt a) (KInt b) = (a =? b).
Proof. reflexivity. Qed.

Lemma pykey_eqb_spec (a b : pykey) : reflect (a = b) (pykey_eqb a b).
Proof. apply iff_reflect. symmetry. apply pykey_eqb_eq. Qed.

Lemma get_set (k k' : pykey) (v : list address) (st : SurfaceIndex) :
  assoc_get pykey_eqb k' (assoc_set pykey_eqb k v st)
  = if pykey_eqb k' k then Some v else assoc_get pykey_eqb k' st.
Proof.
  induction st as [| [k0 v0] st IH]; cbn; [reflexivity |].
  destruct (pykey_eqb_spec k k0) as [-> | Hk]; cbn.
  - destruct (pykey_eqb k' k0); reflexivity.
  - rewrite IH. destruct (pykey_eqb_spec k' k0) as [-> | Hk'].
    + destruct (pykey_eqb_spec k0 k) as [E | _]; [now symmetry in E | reflexivity].
    + reflexivity.
Qed.

Lemma get_update (k k' : pykey) (f : list address -> list address) (st : SurfaceIndex) :
  assoc_get pykey_eqb k' (assoc_update pykey_eqb k f st)
  = if pykey_eqb k' k then option_map f (assoc_get pykey_eqb k' st)
    else assoc_get pykey_eqb k' st.
Proof.
  induction st as [| [k0 v0] st IH]; cbn.
  - destruct (pykey_eqb k' k); reflexivity.
  - destruct (pykey_eqb_spec k k0) as [-> | Hk]; cbn.
    + destruct (pykey_eqb k' k0); reflexivity.
    + rewrite IH. destruct (pykey_eqb_spec k' k0) as [-> | Hk'].
      * destruct (pykey_eqb_spec k0 k) as [E | _]; [now symmetry in E | reflexivity].
      * reflexivity.
Qed.

Lemma get_add_occurrence (k' : pykey) (a : address) (id : Z) (st : SurfaceIndex) :
  assoc_get pykey_eqb k' (add_occurrence st (a, id))
  = appended (KInt id) k' a (assoc_get pykey_eqb k' st).
Proof.
  unfold add_occurrence, appended, assoc_mem. cbn [fst snd].
  destruct (assoc_get pykey_eqb (KInt id) st) as [l |] eqn:E; cbn [negb].
  - rewrite get_update.
    destruct (pykey_eqb_spec k' (KInt id)) as [-> | _]; [| reflexivity].
    now rewrite E.
  - rewrite get_set.
    destruct (pykey_eqb_spec k' (KInt id)) as [-> | _]; [| reflexivity].
    now rewrite E.
Qed.

Lemma extended_app (old : option (list address)) (l1 l2 : list address) :
  extended (extended old l1) l2 = extended old (l1 ++ l2).
Proof.
  destruct l1 as [| a l1]; [reflexivity |].
  destruct l2 as [| b l2]; cbn.
  - now rewrite app_nil_r.
  - destruct old; cbn; [now rewrite <- app_assoc | reflexivity].
Qed.

(** What the index holds under an identifier after a run of recordings:
    the addresses it held, then those of the run, in order. *)
Lemma get_record_all (id : Z) (ps : list (address * Z)) :
  forall st,
    assoc_get pykey_eqb (KInt id) (record_all ps st)
    = extended (assoc_get pykey_eqb (KInt id) st) (addresses_of id ps).
Proof.
  unfold record_all, addresses_of.
  induction ps as [| [a z] ps IH]; intros st; cbn [fold_left filter map snd].
  - reflexivity.
  - rewrite IH, get_add_occurrence. unfold appended. rewrite KInt_eqb.
    rewrite (Z.eqb_sym id z).
    destruct (z =? id) eqn:E; [| reflexivity].
    cbn [map fst].
    change (a :: map fst (filter (fun p => snd p =? id) ps))
      with ([a] ++ map fst (filter (fun p => snd p =? id) ps)).
    rewrite <- extended_app.
    destruct (assoc_get pykey_eqb (KInt id) st); reflexivity.
Qed.

(** Recording integer occurrences creates integer keys only. *)
Lemma keys_record_all (k : pykey) (ps : list (address * Z)) :
  forall st,
    (forall id, k <> KInt id) ->
    assoc_get pykey_eqb k (record_all ps st) = assoc_get pykey_eqb k st.
Proof.
  unfold record_all.
  induction ps as [| [a z] ps IH]; intros st Hk; cbn [fold_left]; [reflexivity |].
  rewrite IH by assumption. rewrite get_add_occurrence. unfold appended.
  destruct (pykey_eqb_spec k (KInt z)) as [E | _]; [now apply Hk in E | reflexivity].
Qed.

Lemma record_all_app (ps qs : list (address * Z)) (st : SurfaceIndex) :
  record_all (ps ++ qs) st = record_all qs (record_all ps st).
Proof. apply fold_left_app. Qed.

Lemma record_address_int (z : Z) (a : address) (st : SurfaceIndex) :
  SemanticSurface.record_address (PInt z) a st = Ok (record_all [(a, z)] st).
Proof.
  unfold SemanticSurface.record_address, record_all, add_occurrence. cbn.
  destruct (assoc_mem pykey_eqb (KInt z) st); reflexivity.
Qed.

(** A loop whose body records the occurrences [lv i x] of each element
    records those of all elements, in order. *)
Lemma for_enum_record_all (body : nat -> pyval -> SurfaceIndex -> result SurfaceIndex)
      (P : pyval -> bool) (lv : nat -> pyval -> list (address * Z)) :
  (forall i x st, P x = true -> body i x st = Ok (record_all (lv i x) st)) ->
  forall l i0 st,
    forallb P l = true ->
    for_enum body l i0 st
    = Ok (record_all (flat_map (fun ix => lv (fst ix) (snd ix)) (enum_from i0 l)) st).
Proof.
  intros Hbody. induction l as [| x l IH]; intros i0 st Hl; cbn in *.
  - reflexivity.
  - apply andb_prop in Hl. destruct Hl as [Hx Hl].
    rewrite (Hbody i0 x st Hx). cbn [bind].
    rewrite (IH (S i0) _ Hl). now rewrite record_all_app.
Qed.

Lemma index_k_leaves (i j k : nat) (x : pyval) (st : SurfaceIndex) :
  values_ok 0 x = true ->
  index_k i j k x st = Ok (record_all (leaves 0 [i; j; k]%nat x) st).
Proof.
  destruct x; cbn; try discriminate; intros _.
  - reflexivity.
  - unfold index_k. cbn. apply record_address_int.
Qed.

Lemma index_j_leaves (i j : nat) (x : pyval) (st : SurfaceIndex) :
  values_ok 1 x = true ->
  index_j i j x st = Ok (record_all (leaves 1 [i; j]%nat x) st).
Proof.
  destruct x; cbn [values_ok]; try discriminate; intros H.
  - reflexivity.
  - unfold index_j. cbn. apply record_address_int.
  - unfold index_j. cbn [is_None negb isinstance_list py_iter bind].
    apply (for_enum_record_all (index_k i j) (values_ok 0)
             (fun k y => leaves 0 [i; j; k]%nat y)); [| assumption].
    intros k y st' Hy. now apply index_k_leaves.
Qed.

Lemma index_i_leaves (i : nat) (x : pyval) (st : SurfaceIndex) :
  values_ok 2 x = true ->
  index_i i x st = Ok (record_all (leaves 2 [i]%nat x) st).
Proof.
  destruct x; cbn [values_ok]; try discriminate; intros H.
  - reflexivity.
  - unfold index_i. cbn. apply record_address_int.
  - unfold index_i. cbn [is_None negb isinstance_list py_iter bind].
    apply (for_enum_record_all (index_j i) (values_ok 1)
             (fun j y => leaves 1 [i; j]%nat y)); [| assumption].
    intros j y st' Hy. now apply index_j_leaves.
Qed.

(** On a values array at most three levels deep the indexer records the
    occurrences of the array, in traversal order, into an empty index. *)
Lemma index_records_occurrences (l : list pyval) :
  forallb (values_ok 2) l = true ->
  SemanticSurface._index_surface_boundaries (PList l)
  = Ok (record_all (occurrences (PList l)) []).
Proof.
  intros H. destruct l as [| x l]; [reflexivity |].
  rewrite index_loops by reflexivity.
  apply (for_enum_record_all index_i (values_ok 2)
           (fun i y => leaves 2 [i]%nat y)); [| assumption].
  intros i y st Hy. now apply index_i_leaves.
Qed.

(** C3. For a values array nested at most three levels, the indexer
    returns an index that maps every identifier occurring as a leaf to the
    addresses of its occurrences (of one, two or three components) in
    traversal order, ascending at every level with the outer index first,
    holds no other key, and passes over null leaves; [[0, 1, 0]] gives
    0 -> [[0],[2]] and 1 -> [[1]]. *)
Theorem index_surface_boundaries_occurrences :
  (forall l : list pyval,
      forallb (values_ok 2) l = true ->
      exists idx,
        SemanticSurface._index_surface_boundaries (PList l) = Ok idx /\
        (forall id, assoc_get pykey_eqb (KInt id) idx
                    = extended None (addresses_of id (occurrences (PList l)))) /\
        (forall k, (forall id, k <> KInt id) -> assoc_get pykey_eqb k idx = None)) /\
  SemanticSurface._index_surface_boundaries (PList [PInt 0; PInt 1; PInt 0])
  = Ok [(KInt 0, [[0]; [2]]%nat); (KInt 1, [[1]]%nat)] /\
  SemanticSurface._index_surface_boundaries
    (PList [PList [PInt 0; PNone]; PNone;
            PList [PList [PInt 1; PNone; PInt 0]; PInt 1]])
  = Ok [(KInt 0, [[0; 0]; [2; 0; 2]]%nat); (KInt 1, [[2; 0; 0]; [2; 1]]%nat)].
Proof.
  split; [| split; reflexivity].
  intros l Hl. exists (record_all (occurrences (PList l)) []).
  split; [now apply index_records_occurrences |]. split.
  - intros id. now rewrite get_record_all.
  - intros k Hk. now rewrite keys_record_all.
Qed.

Lemma index_surface_boundaries_occurrences_witness :
  exists idx,
    SemanticSurface._index_surface_boundaries
      (PList [PInt 4; PList [PNone; PInt 4]]) = Ok idx /\
    (forall id, assoc_get pykey_eqb (KInt id) idx
                = extended None (addresses_of id
                    (occurrences (PList [PInt 4; PList [PNone; PInt 4]])))) /\
    (forall k, (forall id, k <> KInt id) -> assoc_get pykey_eqb k idx = None).
Proof.
  apply (proj1 index_surface_boundaries_occurrences
           [PInt 4; PList [PNone; PInt 4]]).
  reflexivity.
Defined.

(** When each round of a loop either succeeds or raises [e], whatever the
    state, the loop raises [e] as soon as some round does. *)
Lemma for_enum_raises {St : Type} (body : nat -> pyval -> St -> result St)
      (e : pyerr) (bad : pyval -> bool) (l : list pyval) :
  Forall (fun x => forall i st,
              (bad x = true -> body i x st = Raise e) /\
              (bad x = false -> exists st', body i x st = Ok st')) l ->
  forall i st,
    (existsb bad l = true -> for_enum body l i st = Raise e) /\
    (existsb bad l = false -> exists st', for_enum body l i st = Ok st').
Proof.
  induction 1 as [| x l Hx _ IH]; intros i st; cbn.
  - split; [discriminate | intros _; now exists st].
  - destruct (Hx i st) as [Hb Hg]. destruct (bad x) eqn:Ex; cbn.
    + split; [intros _ | discriminate]. now rewrite Hb.
    + destruct (Hg eq_refl) as [st' Hst']. rewrite Hst'. cbn. apply IH.
Qed.

Lemma record_address_ok (z : Z) (a : address) (st : SurfaceIndex) :
  exists st', SemanticSurface.record_address (PInt z) a st = Ok st'.
Proof. rewrite record_address_int. eauto. Qed.

Lemma index_k_cases (i j k : nat) (x : pyval) (st : SurfaceIndex) :
  values_tree 0 x = true ->
  (list_at_level 0 x = true -> index_k i j k x st = Raise SemanticSurface.too_deep) /\
  (list_at_level 0 x = false -> exists st', index_k i j k x st = Ok st').
Proof.
  destruct x; cbn; try discriminate; intros _; split; try discriminate;
    try reflexivity; intros _.
  - now exists st.
  - apply record_address_ok.
Qed.

Lemma index_j_cases (i j : nat) (x : pyval) (st : SurfaceIndex) :
  values_tree 1 x = true ->
  (list_at_level 1 x = true -> index_j i j x st = Raise SemanticSurface.too_deep) /\
  (list_at_level 1 x = false -> exists st', index_j i j x st = Ok st').
Proof.
  destruct x; cbn [values_tree list_at_level]; try discriminate; intros H.
  - split; [discriminate | intros _; now exists st].
  - split; [discriminate | intros _; apply record_address_ok].
  - unfold index_j. cbn [is_None negb isinstance_list py_iter bind].
    apply for_enum_raises. rewrite forallb_forall in H.
    apply Forall_forall. intros y Hy k st'. apply index_k_cases. now apply H.
Qed.

Lemma index_i_cases (i : nat) (x : pyval) (st : SurfaceIndex) :
  values_tree 2 x = true ->
  (list_at_level 2 x = true -> index_i i x st = Raise SemanticSurface.too_deep) /\
  (list_at_level 2 x = false -> exists st', index_i i x st = Ok st').
Proof.
  destruct x; cbn [values_tree list_at_level]; try discriminate; intros H.
  - split; [discriminate | intros _; now exists st].
  - split; [discriminate | intros _; apply record_address_ok].
  - unfold index_i. cbn [is_None negb isinstance_list py_iter bind].
    apply (for_enum_raises (index_j i) SemanticSurface.too_deep (list_at_level 1)).
    rewrite forallb_forall in H.
    apply Forall_forall. intros y Hy j st'. apply index_j_cases. now apply H.
Qed.

(** C4. A values array of identifiers, nulls and nested lists that holds a
    list at the fourth level is refused: the indexer raises the
    too-many-levels [TypeError] and returns no index. *)
Theorem index_surface_boundaries_too_deep (l : list pyval) :
  forallb (values_tree 2) l = true ->
  list_at_level 3 (PList l) = true ->
  SemanticSurface._index_surface_boundaries (PList l)
  = Raise (TypeError "The 'values' member of 'semantics' is too many levels deep").
Proof.
  intros Hl Hdeep.
  assert (Ht : truthy (PList l) = true).
  { destruct l; [discriminate Hdeep | reflexivity]. }
  rewrite (index_loops l Ht).
  apply (for_enum_raises index_i SemanticSurface.too_deep (list_at_level 2) l);
    [| exact Hdeep].
  rewrite forallb_forall in Hl.
  apply Forall_forall. intros y Hy i st. apply index_i_cases. now apply Hl.
Qed.

Lemma index_surface_boundaries_too_deep_witness :
  SemanticSurface._index_surface_boundaries
    (PList [PInt 0; PList [PList [PInt 1; PList [PInt 2]]]])
  = Raise (TypeError "The 'values' member of 'semantics' is too many levels deep").
Proof.
  apply (index_surface_boundaries_too_deep
           [PInt 0; PList [PList [PInt 1; PList [PInt 2]]]]); reflexivity.
Defined.

(** ** Resolving addresses *)

Lemma mapM_map {A B C : Type} (g : A -> B) (f : B -> result C) (l : list A) :
  mapM f (map g l) = mapM (fun x => f (g x)) l.
Proof.
  induction l as [| x l IH]; cbn; [reflexivity |]. now rewrite IH.
Qed.

Lemma mapM_all_Ok {A B : Type} (f : A -> result B) (l : list A) (ys : list B) :
  Forall2 (fun x y => f x = Ok y) l ys -> mapM f l = Ok ys.
Proof.
  induction 1 as [| x y l ys Hx _ IH]; cbn; [reflexivity |].
  now rewrite Hx, IH.
Qed.

Lemma bind_Ok_r {A : Type} (m : result A) : (x <- m ;; Ok x) = m.
Proof. now destruct m. Qed.

(** One round of the resolver's comprehension is successive indexing. *)
Lemma resolve_one (b : pyval) (a : list Z) :
  address_len_ok a = true ->
  (n1 <- py_len (py_address a) ;;
   if n1 =? 1 then
     i0 <- py_getitem (py_address a) (PInt 0) ;;
     py_getitem b i0
   else
     n2 <- py_len (py_address a) ;;
     if n2 =? 2 then
       i0 <- py_getitem (py_address a) (PInt 0) ;;
       b0 <- py_getitem b i0 ;;
       i1 <- py_getitem (py_address a) (PInt 1) ;;
       py_getitem b0 i1
     else
       i0 <- py_getitem (py_address a) (PInt 0) ;;
       b0 <- py_getitem b i0 ;;
       i1 <- py_getitem (py_address a) (PInt 1) ;;
       b1 <- py_getitem b0 i1 ;;
       i2 <- py_getitem (py_address a) (PInt 2) ;;
       py_getitem b1 i2)
  = index_path b a.
Proof.
  destruct a as [| i [| j [| k [| ? ?]]]]; try discriminate; intros _.
  - change (py_len (py_address [i])) with (Ok (A := Z) 1).
    change (py_getitem (py_address [i]) (PInt 0)) with (Ok (PInt i)).
    cbn. now rewrite bind_Ok_r.
  - change (py_len (py_address [i; j])) with (Ok (A := Z) 2).
    change (py_getitem (py_address [i; j]) (PInt 0)) with (Ok (PInt i)).
    change (py_getitem (py_address [i; j]) (PInt 1)) with (Ok (PInt j)).
    cbn. destruct (py_getitem b (PInt i)); cbn; [| reflexivity].
    now rewrite bind_Ok_r.
  - change (py_len (py_address [i; j; k])) with (Ok (A := Z) 3).
    change (py_getitem (py_address [i; j; k]) (PInt 0)) with (Ok (PInt i)).
    change (py_getitem (py_address [i; j; k]) (PInt 1)) with (Ok (PInt j)).
    change (py_getitem (py_address [i; j; k]) (PInt 2)) with (Ok (PInt k)).
    cbn. destruct (py_getitem b (PInt i)) as [b0 |]; cbn; [| reflexivity].
    destruct (py_getitem b0 (PInt j)); cbn; [| reflexivity].
    now rewrite bind_Ok_r.
Qed.

Lemma get_surface_boundaries_resolve (b : pyval) (addrs : list (list Z)) :
  forallb address_len_ok addrs = true ->
  Geometry._get_surface_boundaries b (PList (map py_address addrs)) = resolve b addrs.
Proof.
  intros H. destruct addrs as [| a addrs]; [reflexivity |].
  unfold Geometry._get_surface_boundaries, resolve, list_for.
  cbn [map truthy negb py_len bind py_iter].
  destruct (Z.of_nat (Datatypes.length (py_address a :: map py_address addrs)) =? 0) eqn:E.
  { apply Z.eqb_eq in E. cbn [Datatypes.length] in E. lia. }
  change (py_address a :: map py_address addrs) with (map py_address (a :: addrs)).
  rewrite mapM_map. f_equal. apply mapM_ext.
  intros x Hx. apply resolve_one.
  rewrite forallb_forall in H. now apply H.
Qed.

Lemma reaches_index_path (b : pyval) (a : address) (e : pyval) :
  reaches b a e -> index_path b (nat_address a) = Ok e.
Proof.
  induction 1 as [| l i x a e Hi _ IH]; [reflexivity |].
  cbn. unfold seq_index.
  assert (Hlt : (i < Datatypes.length l)%nat).
  { apply nth_error_Some. now rewrite Hi. }
  replace (0 <=? Z.of_nat i) with true by (symmetry; apply Z.leb_le; lia).
  replace (Z.of_nat i <? Z.of_nat (Datatypes.length l)) with true
    by (symmetry; apply Z.ltb_lt; lia).
  cbn [andb]. rewrite Nat2Z.id, Hi. exact IH.
Qed.

(** C7. An absent or empty list of addresses resolves to the empty list;
    a list of addresses of one, two or three components resolves to what
    successive indexing by the components gives for each address, in the
    order of the list; and when the addresses are positions of elements of
    the boundary, those elements are returned. *)
Theorem get_surface_boundaries_elements :
  (forall b, Geometry._get_surface_boundaries b PNone = Ok (PList []) /\
             Geometry._get_surface_boundaries b (PList []) = Ok (PList [])) /\
  (forall b (addrs : list (list Z)),
      forallb address_len_ok addrs = true ->
      Geometry._get_surface_boundaries b (PList (map py_address addrs))
      = resolve b addrs) /\
  (forall b (addrs : list address) (elems : list pyval),
      forallb address_len_ok addrs = true ->
      Forall2 (reaches b) addrs elems ->
      Geometry._get_surface_boundaries b
        (PList (map py_address (map nat_address addrs)))
      = Ok (PList elems)).
Proof.
  split; [intros b; split; reflexivity |]. split.
  - apply get_surface_boundaries_resolve.
  - intros b addrs elems Hlen HF.
    rewrite get_surface_boundaries_resolve.
    + unfold resolve. rewrite mapM_map.
      rewrite (mapM_all_Ok (fun a => index_path b (nat_address a)) addrs elems);
        [reflexivity |].
      clear - HF. induction HF; constructor; auto using reaches_index_path.
    + clear - Hlen. induction addrs as [| a addrs IH]; [reflexivity |].
      cbn in *. apply andb_prop in Hlen. destruct Hlen as [Ha Hl].
      rewrite (IH Hl), andb_true_r.
      destruct a as [| ? [| ? [| ? [| ? ?]]]]; try discriminate; reflexivity.
Qed.

Lemma get_surface_boundaries_elements_witness :
  Geometry._get_surface_boundaries (PList [triangle_surface])
    (PList (map py_address [[0]; [0; -1]; [5; 0; 0]]))
  = resolve (PList [triangle_surface]) [[0]; [0; -1]; [5; 0; 0]] /\
  Geometry._get_surface_boundaries (PList [triangle_surface])
    (PList (map py_address (map nat_address [[0]; [0; 0; 1]]%nat)))
  = Ok (PList [triangle_surface; PList [PInt 1; PInt 0; PInt 0]]).
Proof.
  split.
  - apply (proj1 (proj2 get_surface_boundaries_elements)). reflexivity.
  - apply (proj2 (proj2 get_surface_boundaries_elements)); [reflexivity |].
    repeat econstructor.
Defined.

(** ** Semantic surfaces of a Geometry *)

(** The call in [_dereference_surfaces] passes no [values], which
    [SemanticSurface.__init__] requires. *)
Lemma SemanticSurface_call_without_values (type children parent attributes : pyval) :
  SemanticSurface.call [("type", type); ("children", children);
                        ("parent", parent); ("attributes", attributes)]
  = Raise (TypeError "__init__() missing 1 required positional argument: 'values'").
Proof. reflexivity. Qed.

(** With values present and at least one entry in [surfaces], no mapping
    of semantic surfaces is ever returned. *)
Lemma dereference_surfaces_raises (d : list (string * pyval))
      (values srf : pyval) (rest : list pyval) :
  dict_lookup "values" d = Some values ->
  truthy values = true ->
  dict_lookup "surfaces" d = Some (PList (srf :: rest)) ->
  exists e, Geometry._dereference_surfaces (PDict d) = Raise e.
Proof.
  intros Hv Ht Hs. unfold Geometry._dereference_surfaces.
  assert (Hd : truthy (PDict d) = true) by (destruct d; [discriminate | reflexivity]).
  rewrite Hd. cbn [negb py_getitem]. rewrite Hv. cbn [bind]. rewrite Ht.
  cbn [negb]. rewrite Hs. cbn [bind py_iter for_enum].
  destruct (Geometry.py_items srf) as [items |]; cbn [bind]; [| eauto].
  destruct (fold_left Geometry.assign_item items
              (Geometry.mk_locals None None None, [])) as [loc attributes].
  destruct loc as [[t |] [c |] [p |]]; cbn [Geometry.l_type Geometry.l_children
    Geometry.l_parent read_local bind]; eauto.
  rewrite SemanticSurface_call_without_values. cbn [bind]. eauto.
Qed.

(** C1, on the code. Construction with the semantics of the
    specification's example stops at the first surface, whose [children]
    was never assigned; with a first surface that gives type, children and
    parent, it stops at the call that builds the SemanticSurface, which
    passes no [values]. No [surfaces] mapping is produced in either case. *)
Theorem Geometry_init_semantics_fails :
  Geometry.__init__ (PStr "MultiSurface") (PInt 2) three_surfaces
    wall_roof_semantics (PList triangle_vertices)
  = Raise (UnboundLocalError "children") /\
  Geometry.__init__ (PStr "MultiSurface") (PInt 2) three_surfaces
    hierarchy_semantics (PList triangle_vertices)
  = Raise (TypeError "__init__() missing 1 required positional argument: 'values'").
Proof. split; reflexivity. Qed.

(** ** Filtering city objects *)

Lemma gen_drain_filters (str_lower : lowering) (s : string) (l : list CityObject.t) :
  forall fuel,
    (Datatypes.length l < fuel)%nat ->
    gen_drain str_lower fuel (mk_genexpr l (str_lower s))
    = (of_type str_lower s l, exhausted str_lower s).
Proof.
  induction l as [| co l IH]; intros fuel Hf.
  - destruct fuel; [inversion Hf | reflexivity].
  - destruct fuel as [| fuel]; [inversion Hf |].
    cbn [Datatypes.length] in Hf.
    cbn [gen_drain pending target gen_next of_type filter].
    destruct (String.eqb (str_lower (CityObject.type co)) (str_lower s)) eqn:E.
    + rewrite (IH fuel) by lia. reflexivity.
    + specialize (IH (S fuel) ltac:(lia)).
      cbn [gen_drain pending target] in IH. exact IH.
Qed.

Lemma heap_last (h : heap) (g : genexpr) :
  nth_error (h ++ [g]) (Datatypes.length h) = Some g.
Proof. induction h; [reflexivity | assumption]. Qed.

Lemma heap_set_last (h : heap) (g g' : genexpr) :
  heap_set (Datatypes.length h) g' (h ++ [g]) = h ++ [g'].
Proof.
  induction h as [| g0 h IH]; [reflexivity |]. cbn. now rewrite IH.
Qed.

Lemma py_list_generator (str_lower : lowering) (s : string)
      (l : list CityObject.t) (h : heap) :
  py_list str_lower (OGen (Datatypes.length h)) (h ++ [mk_genexpr l (str_lower s)])
  = (of_type str_lower s l, h ++ [exhausted str_lower s]).
Proof.
  unfold py_list. rewrite heap_last. cbn [pending].
  rewrite gen_drain_filters by lia. now rewrite heap_set_last.
Qed.

(** C8, as the code has it. Without a filter the model's own list of
    CityObjects is returned, which every pass goes through in full; with a
    string filter a new generator is returned, whose first pass yields
    exactly the CityObjects whose lowered type equals the lowered filter
    (by [str.lower], whatever it does to the text), in order, and which
    yields nothing afterwards; the call raises, and then a [TypeError],
    exactly when the filter is neither [None] nor a string. *)
Theorem get_cityobjects_by_type (str_lower : lowering) :
  (forall self h,
      CityModel.get_cityobjects str_lower self PNone h
      = Ok (OList (CityModel.cityobjects self), h) /\
      forall h', py_list str_lower (OList (CityModel.cityobjects self)) h'
                 = (CityModel.cityobjects self, h')) /\
  (forall self s h,
      CityModel.get_cityobjects str_lower self (PStr s) h
      = Ok (OGen (Datatypes.length h),
            h ++ [mk_genexpr (CityModel.cityobjects self) (str_lower s)]) /\
      py_list str_lower (OGen (Datatypes.length h))
        (h ++ [mk_genexpr (CityModel.cityobjects self) (str_lower s)])
      = (of_type str_lower s (CityModel.cityobjects self),
         h ++ [exhausted str_lower s]) /\
      py_list str_lower (OGen (Datatypes.length h)) (h ++ [exhausted str_lower s])
      = ([], h ++ [exhausted str_lower s])) /\
  (forall self type h,
      (exists e, CityModel.get_cityobjects str_lower self type h = Raise e) <->
      (type <> PNone /\ forall s, type <> PStr s)) /\
  (forall self type h e,
      CityModel.get_cityobjects str_lower self type h = Raise e ->
      e = TypeError "type parameter must be a string").
Proof.
  repeat split.
  - apply py_list_generator.
  - apply (py_list_generator str_lower s []).
  - destruct H as [e He]. intros ->. discriminate He.
  - destruct H as [e He]. intros s ->. discriminate He.
  - intros [Hn Hs]. destruct type; cbn; eauto.
    + now contradiction Hn.
    + now contradiction (Hs s).
  - intros self type h e. destruct type; cbn; intros H;
      try discriminate H; now injection H as <-.
Qed.

Lemma get_cityobjects_by_type_witness :
  exists e, CityModel.get_cityobjects lower small_city (PInt 3) [] = Raise e.
Proof.
  apply (proj2 (proj1 (proj2 (proj2 (get_cityobjects_by_type lower)))
                 small_city (PInt 3) [])).
  split; [discriminate | intros s; discriminate].
Defined.

(** C8 as stated fails: the sequence returned for a string filter cannot
    be restarted. Its first pass yields the building, a second pass over
    the same object yields nothing. (The text involved is ASCII, which
    [str.lower] lowers as [lower] does.) *)
Lemma get_cityobjects_single_pass :
  CityModel.get_cityobjects lower small_city (PStr "building") []
  = Ok (OGen 0, [mk_genexpr [a_building; a_road] "building"]) /\
  py_list lower (OGen 0) [mk_genexpr [a_building; a_road] "building"]
  = ([a_building], [mk_genexpr [] "building"]) /\
  py_list lower (OGen 0) [mk_genexpr [] "building"] = ([], [mk_genexpr [] "building"]).
Proof. repeat split. Qed.

(** * Further properties *)

(** ** The index against a re-scan of the values *)

Lemma In_enum_from {A : Type} (l : list A) :
  forall (n i : nat) (x : A),
    In (i, x) (enum_from n l) <-> (n <= i)%nat /\ nth_error l (i - n) = Some x.
Proof.
  induction l as [| y l IH]; intros n i x; cbn.
  - split; [intros [] | intros [_ H]]. now destruct (i - n)%nat.
  - rewrite IH. split.
    + intros [[= <- <-] | [Hn Hx]].
      * split; [lia |]. now rewrite Nat.sub_diag.
      * split; [lia |]. replace (i - n)%nat with (S (i - S n)) by lia. exact Hx.
    + intros [Hn Hx]. destruct (Nat.eq_dec i n) as [-> | Hne].
      * left. rewrite Nat.sub_diag in Hx. cbn in Hx. now injection Hx as ->.
      * right. split; [lia |].
        replace (i - n)%nat with (S (i - S n)) in Hx by lia. exact Hx.
Qed.

Lemma reaches_scalar (v : pyval) (q : address) (e : pyval) :
  isinstance_list v = false -> reaches v q e -> q = [] /\ e = v.
Proof.
  intros Hv H. destruct H as [b | l i x a e Hi Hr]; [now split | discriminate Hv].
Qed.

(** The traversal lists exactly the positions, at most [d] levels below
    [v], at which an identifier sits. *)
Lemma leaves_reaches :
  forall (d : nat) (prefix : address) (v : pyval) (a : address) (z : Z),
    In (a, z) (leaves d prefix v) <->
    exists q, a = prefix ++ q /\ (Datatypes.length q <= d)%nat /\ reaches v q (PInt z).
Proof.
  assert (Hscalar : forall (d : nat) prefix v a z,
             isinstance_list v = false ->
             In (a, z) (leaves d prefix v) <->
             exists q, a = prefix ++ q /\ (Datatypes.length q <= d)%nat /\
                       reaches v q (PInt z)).
  { intros d prefix v a z Hv. split.
    - destruct v, d; cbn; try (intros []; fail); try discriminate Hv;
        (intros [[= <- <-] | []]; exists []; rewrite app_nil_r;
         repeat split; [cbn; lia | constructor]).
    - intros [q [-> [_ Hr]]]. destruct (reaches_scalar v q _ Hv Hr) as [-> E].
      rewrite app_nil_r. subst v. destruct d; now left. }
  induction d as [| d IH]; intros prefix v a z.
  - destruct v; try (apply Hscalar; reflexivity).
    cbn. split; [intros [] |]. intros [q [_ [Hq Hr]]].
    destruct q; [| cbn in Hq; lia]. inversion Hr.
  - destruct v; try (apply Hscalar; reflexivity).
    cbn [leaves]. rewrite in_flat_map. split.
    + intros [[i x] [Hix Hin]]. cbn [fst snd] in Hin.
      apply In_enum_from in Hix. destruct Hix as [_ Hx]. rewrite Nat.sub_0_r in Hx.
      apply IH in Hin. destruct Hin as [q [-> [Hq Hr]]].
      exists (i :: q). rewrite <- app_assoc. repeat split; [cbn; lia |].
      now apply reaches_step with (x := x).
    + intros [q [-> [Hq Hr]]]. inversion Hr as [| l' i x q' e Hi Hr']; subst.
      exists (i, x). split.
      * apply In_enum_from. split; [lia |]. now rewrite Nat.sub_0_r.
      * cbn [fst snd]. apply IH. exists q'. rewrite <- app_assoc.
        repeat split; [cbn in Hq; lia | assumption].
Qed.

Lemma in_addresses_of (id : Z) (a : address) (occ : list (address * Z)) :
  In a (addresses_of id occ) <-> In (a, id) occ.
Proof.
  unfold addresses_of. rewrite in_map_iff. split.
  - intros [[a' z] [Ha Hin]]. cbn in Ha. subst a'.
    apply filter_In in Hin. destruct Hin as [Hin Hz]. cbn in Hz.
    apply Z.eqb_eq in Hz. now subst z.
  - intros Hin. exists (a, id). split; [reflexivity |].
    apply filter_In. split; [assumption |]. cbn. apply Z.eqb_refl.
Qed.

Lemma extended_None_Some (l addrs : list address) :
  extended None l = Some addrs <-> l = addrs /\ l <> [].
Proof.
  destruct l; cbn; split.
  - discriminate.
  - intros [_ H]. now contradiction H.
  - intros [= <-]. split; [reflexivity | discriminate].
  - intros [<- _]. reflexivity.
Qed.

(** X1. The addresses the index holds for an identifier are exactly the
    positions of the values array, of at most three components, at which
    that identifier sits: none is missing and none is invalid. *)
Theorem index_addresses_are_positions (l : list pyval) :
  forallb (values_ok 2) l = true ->
  exists idx,
    SemanticSurface._index_surface_boundaries (PList l) = Ok idx /\
    forall (id : Z) (a : address),
      (exists addrs, assoc_get pykey_eqb (KInt id) idx = Some addrs /\ In a addrs) <->
      ((Datatypes.length a <= 3)%nat /\ reaches (PList l) a (PInt id)).
Proof.
  intros Hl. exists (record_all (occurrences (PList l)) []).
  split; [now apply index_records_occurrences |].
  intros id a. rewrite get_record_all. cbn [assoc_get].
  split.
  - intros [addrs [Hs Hin]]. apply extended_None_Some in Hs. destruct Hs as [<- _].
    apply in_addresses_of, leaves_reaches in Hin.
    destruct Hin as [q [-> [Hq Hr]]]. now split.
  - intros [Hlen Hr]. exists (addresses_of id (occurrences (PList l))).
    assert (Hin : In a (addresses_of id (occurrences (PList l)))).
    { apply in_addresses_of, leaves_reaches. exists a. now repeat split. }
    split; [| assumption]. apply extended_None_Some. split; [reflexivity |].
    intros E. rewrite E in Hin. destruct Hin.
Qed.

Lemma index_addresses_are_positions_witness :
  exists idx,
    SemanticSurface._index_surface_boundaries
      (PList [PInt 1; PList [PNone; PInt 1]]) = Ok idx /\
    forall (id : Z) (a : address),
      (exists addrs, assoc_get pykey_eqb (KInt id) idx = Some addrs /\ In a addrs) <->
      ((Datatypes.length a <= 3)%nat /\
       reaches (PList [PInt 1; PList [PNone; PInt 1]]) a (PInt id)).
Proof.
  apply (index_addresses_are_positions [PInt 1; PList [PNone; PInt 1]]).
  reflexivity.
Defined.

(** ** The order of the recorded addresses *)


Lemma lex_lt_app (p a b : address) : lex_lt a b -> lex_lt (p ++ a) (p ++ b).
Proof. intros H. induction p; [assumption | now apply lex_tail]. Qed.

Lemma StronglySorted_app_cross {A : Type} (R : A -> A -> Prop) (l1 l2 : list A) :
  StronglySorted R l1 -> StronglySorted R l2 ->
  (forall a b, In a l1 -> In b l2 -> R a b) ->
  StronglySorted R (l1 ++ l2).
Proof.
  induction 1 as [| x l1 H1 IH Hx]; intros H2 Hc; cbn; [assumption |].
  constructor.
  - apply IH; [assumption |]. intros a b Ha Hb. apply Hc; [now right | assumption].
  - apply Forall_app. split; [assumption |].
    apply Forall_forall. intros b Hb. apply Hc; [now left | assumption].
Qed.

Lemma leaves_extend_prefix (d : nat) (prefix : address) (v : pyval) (a : address) :
  In a (map fst (leaves d prefix v)) -> exists q, a = prefix ++ q.
Proof.
  intros H. apply in_map_iff in H. destruct H as [[a' z] [<- Hin]].
  apply leaves_reaches in Hin. destruct Hin as [q [-> _]]. now exists q.
Qed.

(** The traversal visits the positions in ascending lexicographic order. *)
Lemma leaves_sorted :
  forall (d : nat) (prefix : address) (v : pyval),
    StronglySorted lex_lt (map fst (leaves d prefix v)).
Proof.
  induction d as [| d IH]; intros prefix v.
  - destruct v; cbn; repeat constructor.
  - destruct v; cbn [leaves]; try (cbn; repeat constructor; fail).
    generalize 0%nat. induction l as [| x l IHl]; intros n; cbn; [constructor |].
    rewrite map_app. apply StronglySorted_app_cross; [apply IH | apply IHl |].
    intros a b Ha Hb.
    apply leaves_extend_prefix in Ha. destruct Ha as [q ->].
    apply in_map_iff in Hb. destruct Hb as [[b' z] [<- Hb]].
    apply in_flat_map in Hb. destruct Hb as [[i y] [Hiy Hb]].
    apply In_enum_from in Hiy. destruct Hiy as [Hi _].
    apply leaves_reaches in Hb. destruct Hb as [q' [-> _]]. cbn [fst snd].
    rewrite <- !app_assoc. apply lex_lt_app. cbn. apply lex_head. lia.
Qed.

Lemma addresses_of_sorted (id : Z) (occ : list (address * Z)) :
  StronglySorted lex_lt (map fst occ) ->
  StronglySorted lex_lt (addresses_of id occ).
Proof.
  unfold addresses_of. induction occ as [| [a z] occ IH]; cbn; [constructor |].
  intros H. apply StronglySorted_inv in H. destruct H as [Hs Ha].
  destruct (z =? id); cbn; [| now apply IH].
  constructor; [now apply IH |].
  rewrite Forall_forall in *. intros b Hb. apply Ha.
  apply in_map_iff in Hb. destruct Hb as [p [<- Hp]].
  apply filter_In in Hp. apply in_map. apply Hp.
Qed.

(** X2. The addresses the index holds for an identifier are in strictly
    ascending lexicographic order, so none is recorded twice. *)
Theorem index_addresses_ascending (l : list pyval) :
  forallb (values_ok 2) l = true ->
  exists idx,
    SemanticSurface._index_surface_boundaries (PList l) = Ok idx /\
    forall (id : Z) (addrs : list address),
      assoc_get pykey_eqb (KInt id) idx = Some addrs ->
      StronglySorted lex_lt addrs.
Proof.
  intros Hl. exists (record_all (occurrences (PList l)) []).
  split; [now apply index_records_occurrences |].
  intros id addrs. rewrite get_record_all. cbn [assoc_get]. intros H.
  apply extended_None_Some in H. destruct H as [<- _].
  apply addresses_of_sorted, leaves_sorted.
Qed.

Lemma index_addresses_ascending_witness :
  exists idx,
    SemanticSurface._index_surface_boundaries
      (PList [PList [PInt 0; PInt 0]; PInt 0]) = Ok idx /\
    forall (id : Z) (addrs : list address),
      assoc_get pykey_eqb (KInt id) idx = Some addrs ->
      StronglySorted lex_lt addrs.
Proof.
  apply (index_addresses_ascending [PList [PInt 0; PInt 0]; PInt 0]).
  reflexivity.
Defined.

(** ** Resolving the index against a boundary *)

Lemma reaches_app (root m e : pyval) (p q : address) :
  reaches root p m -> reaches m q e -> reaches root (p ++ q) e.
Proof.
  induction 1 as [| l i x a m Hi _ IH]; intros Hq; [assumption |].
  cbn. apply reaches_step with (x := x); auto.
Qed.

Lemma reaches_element (pre bl : list pyval) (bx : pyval) :
  reaches (PList (pre ++ bx :: bl)) [Datatypes.length pre] bx.
Proof.
  apply reaches_step with (x := bx); [| constructor].
  rewrite nth_error_app2 by lia. now rewrite Nat.sub_diag.
Qed.

Lemma addresses_of_app (id : Z) (occ1 occ2 : list (address * Z)) :
  addresses_of id (occ1 ++ occ2) = addresses_of id occ1 ++ addresses_of id occ2.
Proof. unfold addresses_of. now rewrite filter_app, map_app. Qed.

(** The positions of an identifier in the values lead, in the boundary,
    to the elements the values mark with it. *)
Lemma select_reaches (root : pyval) (id : Z) :
  forall (d : nat) (prefix : address) (v b : pyval),
    congruentb d v b = true ->
    reaches root prefix b ->
    Forall2 (reaches root) (addresses_of id (leaves d prefix v)) (select d id v b).
Proof.
  assert (Hscalar : forall d prefix v b,
             isinstance_list v = false -> congruentb d v b = true ->
             reaches root prefix b ->
             Forall2 (reaches root) (addresses_of id (leaves d prefix v))
                     (select d id v b)).
  { intros d prefix v b Hv Hc Hr.
    destruct v; try discriminate; destruct d; unfold addresses_of; cbn;
      try destruct (z =? id); cbn; repeat constructor; try assumption. }
  induction d as [| d IH]; intros prefix v b Hc Hr.
  - destruct v; try (apply Hscalar; [reflexivity | assumption | assumption]).
    discriminate Hc.
  - destruct v; try (apply Hscalar; [reflexivity | assumption | assumption]).
    cbn [congruentb] in Hc. destruct b as [| | | bl |]; try discriminate Hc.
    cbn [leaves select].
    change bl with ([] ++ bl) in Hr.
    change 0%nat with (Datatypes.length (@nil pyval)).
    revert Hc Hr. generalize (@nil pyval) as pre. revert bl.
    induction l as [| x l IHl]; intros bl pre Hc Hr.
    + destruct bl; [constructor | discriminate Hc].
    + destruct bl as [| bx bl]; [discriminate Hc |].
      cbn [forall2b] in Hc. apply andb_prop in Hc. destruct Hc as [Hx Hl].
      cbn [enum_from flat_map combine fst snd]. rewrite addresses_of_app.
      apply Forall2_app.
      * apply IH; [assumption |].
        apply reaches_app with (m := PList (pre ++ bx :: bl)); [assumption |].
        apply reaches_element.
      * replace (S (Datatypes.length pre)) with (Datatypes.length (pre ++ [bx]))
          by (rewrite length_app; cbn; lia).
        apply IHl; [assumption |]. now rewrite <- app_assoc.
Qed.

Lemma congruentb_values_ok :
  forall (d : nat) (v b : pyval), congruentb d v b = true -> values_ok d v = true.
Proof.
  induction d as [| d IH]; intros v b H; destruct v; try discriminate H;
    try reflexivity.
  cbn in *. destruct b as [| | | bl |]; try discriminate H.
  revert bl H. induction l as [| x l IHl]; intros bl H; [reflexivity |].
  destruct bl as [| bx bl]; [discriminate H |].
  cbn in *. apply andb_prop in H. destruct H as [Hx Hl].
  rewrite (IH x bx Hx). cbn. now apply (IHl bl).
Qed.

Lemma occurrences_len_ok (l : list pyval) (id : Z) :
  forallb address_len_ok (addresses_of id (occurrences (PList l))) = true.
Proof.
  apply forallb_forall. intros a Ha.
  apply in_addresses_of, leaves_reaches in Ha.
  destruct Ha as [q [-> [Hq Hr]]]. cbn [app].
  destruct q as [| ? [| ? [| ? [| ? ?]]]]; try reflexivity.
  - inversion Hr.
  - cbn in Hq. lia.
Qed.

Lemma address_len_ok_nat (addrs : list address) :
  forallb address_len_ok addrs = true ->
  forallb address_len_ok (map nat_address addrs) = true.
Proof.
  induction addrs as [| a addrs IH]; [reflexivity |]. cbn.
  intros H. apply andb_prop in H. destruct H as [Ha Hl].
  rewrite (IH Hl), andb_true_r.
  destruct a as [| ? [| ? [| ? [| ? ?]]]]; try discriminate; reflexivity.
Qed.

Lemma get_surface_boundaries_reaches (b : pyval) (addrs : list address)
      (elems : list pyval) :
  forallb address_len_ok addrs = true ->
  Forall2 (reaches b) addrs elems ->
  Geometry._get_surface_boundaries b (PList (map py_address (map nat_address addrs)))
  = Ok (PList elems).
Proof.
  intros Hlen HF.
  rewrite get_surface_boundaries_resolve by now apply address_len_ok_nat.
  unfold resolve. rewrite mapM_map.
  rewrite (mapM_all_Ok (fun a => index_path b (nat_address a)) addrs elems);
    [reflexivity |].
  clear - HF. induction HF; constructor; auto using reaches_index_path.
Qed.

(** X3. Indexing a values array and resolving the addresses of an
    identifier against a boundary that the values mirror returns exactly
    the boundary elements the values mark with that identifier, in
    ascending index order. *)
Theorem index_then_resolve (l : list pyval) (b : pyval) :
  congruentb 3 (PList l) b = true ->
  exists idx,
    SemanticSurface._index_surface_boundaries (PList l) = Ok idx /\
    forall (id : Z) (addrs : list address),
      assoc_get pykey_eqb (KInt id) idx = Some addrs ->
      Geometry._get_surface_boundaries b
        (PList (map py_address (map nat_address addrs)))
      = Ok (PList (select 3 id (PList l) b)).
Proof.
  intros Hc. exists (record_all (occurrences (PList l)) []).
  split.
  - apply index_records_occurrences.
    apply congruentb_values_ok in Hc. exact Hc.
  - intros id addrs. rewrite get_record_all. cbn [assoc_get]. intros H.
    apply extended_None_Some in H. destruct H as [<- _].
    apply get_surface_boundaries_reaches; [apply occurrences_len_ok |].
    apply select_reaches; [assumption | constructor].
Qed.

Lemma index_then_resolve_witness :
  exists idx,
    SemanticSurface._index_surface_boundaries (PList [PInt 0; PInt 1; PInt 0])
    = Ok idx /\
    forall (id : Z) (addrs : list address),
      assoc_get pykey_eqb (KInt id) idx = Some addrs ->
      Geometry._get_surface_boundaries
        (PList [triangle_surface; PList []; PList [PList []]])
        (PList (map py_address (map nat_address addrs)))
      = Ok (PList (select 3 id (PList [PInt 0; PInt 1; PInt 0])
                     (PList [triangle_surface; PList []; PList [PList []]]))).
Proof.
  apply (index_then_resolve [PInt 0; PInt 1; PInt 0]
           (PList [triangle_surface; PList []; PList [PList []]])).
  reflexivity.
Defined.

(** ** What [_dereference_surfaces] returns *)

(** X4. [_dereference_surfaces] returns the empty mapping when the
    semantics object is absent or empty and when its values are empty or
    null, and it never returns anything but the empty mapping: a Geometry
    that is constructed has no semantic surfaces. *)
Theorem dereference_surfaces_only_empty :
  (forall semantics_obj,
      truthy semantics_obj = false ->
      Geometry._dereference_surfaces semantics_obj = Ok []) /\
  (forall d values,
      dict_lookup "values" d = Some values ->
      truthy values = false ->
      Geometry._dereference_surfaces (PDict d) = Ok []) /\
  (forall semantics_obj r,
      Geometry._dereference_surfaces semantics_obj = Ok r -> r = []) /\
  (forall type lod boundaries semantics_obj vertices g,
      Geometry.__init__ type lod boundaries semantics_obj vertices = Ok g ->
      Geometry.surfaces g = []).
Proof.
  assert (Hnever : forall semantics_obj r,
             Geometry._dereference_surfaces semantics_obj = Ok r -> r = []).
  { intros sem r. unfold Geometry._dereference_surfaces.
    destruct (truthy sem); cbn [negb]; [| now intros [= <-]].
    destruct (py_getitem sem (PStr "values")) as [values |]; cbn [bind];
      [| discriminate].
    destruct (truthy values); cbn [negb]; [| now intros [= <-]].
    destruct (py_getitem sem (PStr "surfaces")) as [surfaces |]; cbn [bind];
      [| discriminate].
    destruct (py_iter surfaces) as [srfs |]; cbn [bind]; [| discriminate].
    destruct srfs as [| srf rest]; cbn [for_enum bind snd]; [now intros [= <-] |].
    destruct (Geometry.py_items srf) as [items |]; cbn [bind]; [| discriminate].
    destruct (fold_left Geometry.assign_item items
                (Geometry.mk_locals None None None, [])) as [loc attributes].
    destruct loc as [[t |] [c |] [p |]]; cbn [Geometry.l_type Geometry.l_children
      Geometry.l_parent read_local bind]; discriminate. }
  repeat split.
  - intros sem Hs. unfold Geometry._dereference_surfaces. now rewrite Hs.
  - intros d values Hv Ht. unfold Geometry._dereference_surfaces.
    destruct d as [| kv d]; [reflexivity |].
    cbn [truthy negb py_getitem]. rewrite Hv. cbn [bind]. now rewrite Ht.
  - exact Hnever.
  - intros type lod boundaries sem vertices g. unfold Geometry.__init__.
    destruct (Geometry._dereference_boundary type boundaries vertices);
      cbn [bind]; [| discriminate].
    destruct (Geometry._dereference_surfaces sem) as [r |] eqn:E; cbn [bind];
      [| discriminate].
    intros [= <-]. cbn. now apply (Hnever sem).
Qed.

Lemma dereference_surfaces_only_empty_witness :
  Geometry._dereference_surfaces (PDict []) = Ok [] /\
  Geometry._dereference_surfaces (PDict [("values", PList [])]) = Ok [] /\
  Geometry.surfaces (Geometry.mk (PStr "MultiPoint") (PInt 1)
                       (PList [PList [PInt 0; PInt 0; PInt 0]]) []) = [].
Proof.
  split; [| split].
  - apply (proj1 dereference_surfaces_only_empty). reflexivity.
  - apply (proj1 (proj2 dereference_surfaces_only_empty)
             [("values", PList [])] (PList [])); reflexivity.
  - apply (proj2 (proj2 (proj2 dereference_surfaces_only_empty))
             (PStr "MultiPoint") (PInt 1) (PList [PInt 0])
             (PDict [("values", PList [PInt 0]); ("surfaces", PList [])])
             (PList triangle_vertices)).
    reflexivity.
Defined.

(** X5. A non-empty semantics object without a ["values"] member raises
    [KeyError('values')]; one with non-empty values but no ["surfaces"]
    member raises [KeyError('surfaces')]. *)
Theorem dereference_surfaces_missing_member :
  (forall d,
      d <> [] ->
      dict_lookup "values" d = None ->
      Geometry._dereference_surfaces (PDict d) = Raise (KeyError "values")) /\
  (forall d values,
      dict_lookup "values" d = Some values ->
      truthy values = true ->
      dict_lookup "surfaces" d = None ->
      Geometry._dereference_surfaces (PDict d) = Raise (KeyError "surfaces")).
Proof.
  split.
  - intros d Hd Hv. unfold Geometry._dereference_surfaces.
    destruct d as [| kv d]; [now contradiction Hd |].
    cbn [truthy negb py_getitem]. now rewrite Hv.
  - intros d values Hv Ht Hs. unfold Geometry._dereference_surfaces.
    destruct d as [| kv d]; [discriminate Hv |].
    cbn [truthy negb py_getitem]. rewrite Hv. cbn [bind]. rewrite Ht.
    cbn [negb]. now rewrite Hs.
Qed.

Lemma dereference_surfaces_missing_member_witness :
  Geometry._dereference_surfaces (PDict [("surfaces", PList [])])
  = Raise (KeyError "values") /\
  Geometry._dereference_surfaces (PDict [("values", PList [PInt 0])])
  = Raise (KeyError "surfaces").
Proof.
  split.
  - apply (proj1 dereference_surfaces_missing_member); [discriminate | reflexivity].
  - apply (proj2 dereference_surfaces_missing_member
             [("values", PList [PInt 0])] (PList [PInt 0])); reflexivity.
Defined.

(** ** Boundaries that do not fit the kind *)

Lemma deep_cases (f : pyval -> result pyval) (e : pyerr) (p q : pyval -> bool) :
  (forall x, p x = true ->
             (q x = true -> f x = Raise e) /\
             (q x = false -> exists y, f x = Ok y)) ->
  forall d v, all_at p d v = true ->
    (some_at q d v = true -> deep d f v = Raise e) /\
    (some_at q d v = false -> exists out, deep d f v = Ok out).
Proof.
  intros Hf. induction d as [| d IH]; intros v Hv; cbn in *.
  - now apply Hf.
  - destruct v; try discriminate. rewrite forallb_forall in Hv.
    destruct (mapM_raises (deep d f) e (some_at q d) l) as [Hb Hg].
    + apply Forall_forall. intros x Hx. apply IH. now apply Hv.
    + unfold list_for. cbn. split; intros H.
      * now rewrite (Hb H).
      * destruct (Hg H) as [ys ->]. cbn. now exists (PList ys).
Qed.

Lemma some_at_truthy (q : pyval -> bool) (d : nat) (v : pyval) :
  some_at q (S d) v = true -> truthy v = true.
Proof.
  cbn. destruct v; try discriminate. destruct l; [discriminate | reflexivity].
Qed.

(** X6. A boundary nested one level deeper than its kind allows, that is
    one in which a list stands where a vertex index is expected, raises the
    [TypeError] of subscripting the vertex table with a list. *)
Theorem dereference_boundary_too_deep
        (k : GeometryKind) (s : string) (boundary : pyval) (vs : list pyval) :
  names_kind s k ->
  all_at (index_or_list vs) (kind_depth k) boundary = true ->
  some_at isinstance_list (kind_depth k) boundary = true ->
  Geometry._dereference_boundary (PStr s) boundary (PList vs) = Raise list_as_index.
Proof.
  intros Hs Ha Hb.
  rewrite (dereference_boundary_deep k s boundary (PList vs) Hs
             (some_at_truthy _ _ _ Hb)).
  apply (deep_cases (py_getitem (PList vs)) list_as_index (index_or_list vs)
           isinstance_list); [| assumption | assumption].
  intros x Hx. destruct x; try discriminate Hx; cbn.
  - split; [discriminate | intros _].
    destruct (seq_index_wrapped vs z Hx) as [v [-> _]]. now exists v.
  - split; [reflexivity | discriminate].
Qed.

Lemma dereference_boundary_too_deep_witness :
  Geometry._dereference_boundary (PStr "MultiLineString")
    (PList [PList [PInt 0; PInt 1]; PList [PList [PInt 1; PInt 2]]])
    (PList triangle_vertices) = Raise list_as_index.
Proof.
  apply (dereference_boundary_too_deep MultiLineString); reflexivity.
Defined.

(** X7. For every kind but MultiPoint, a boundary whose first element is a
    bare vertex index, as in a boundary one level too shallow, raises the
    [TypeError] of iterating over an integer, whatever follows it. *)
Theorem dereference_boundary_too_shallow
        (k : GeometryKind) (s : string) (i : Z) (rest : list pyval) (vertices : pyval) :
  names_kind s k ->
  (1 <= kind_levels k)%nat ->
  Geometry._dereference_boundary (PStr s) (PList (PInt i :: rest)) vertices
  = Raise int_not_iterable.
Proof.
  intros Hs Hk.
  rewrite (dereference_boundary_deep k s (PList (PInt i :: rest)) vertices Hs eq_refl).
  unfold kind_depth. destruct (kind_levels k) as [| n]; [lia |]. reflexivity.
Qed.

Lemma dereference_boundary_too_shallow_witness :
  Geometry._dereference_boundary (PStr "Solid") (PList [PInt 0; PInt 1; PInt 2])
    (PList triangle_vertices) = Raise int_not_iterable.
Proof.
  apply (dereference_boundary_too_shallow Solid); [reflexivity | cbn; lia].
Defined.

(** X8. Without boundaries a Geometry is constructed with the empty
    boundary whatever its type and vertex table; with non-empty boundaries
    and a type that is not a string, [None] included, construction raises
    [AttributeError] before the vertex table is looked at. *)
Theorem Geometry_init_type_and_boundaries :
  (forall type lod vertices,
      Geometry.__init__ type lod PNone PNone vertices
      = Ok (Geometry.mk type lod (PList []) [])) /\
  (forall type lod boundaries semantics_obj vertices,
      truthy boundaries = true ->
      (forall s, type <> PStr s) ->
      Geometry.__init__ type lod boundaries semantics_obj vertices
      = Raise (AttributeError
                 ("'" ++ type_name type ++ "' object has no attribute 'lower'")%string)).
Proof.
  split; [reflexivity |].
  intros type lod boundaries sem vertices Hb Ht.
  unfold Geometry.__init__, Geometry._dereference_boundary. rewrite Hb.
  destruct type; try reflexivity. now contradiction (Ht s).
Qed.

Lemma Geometry_init_type_and_boundaries_witness :
  Geometry.__init__ PNone (PInt 1) (PList [PInt 0]) PNone (PList triangle_vertices)
  = Raise (AttributeError "'NoneType' object has no attribute 'lower'").
Proof.
  apply (proj2 Geometry_init_type_and_boundaries PNone);
    [reflexivity | intros s; discriminate].
Defined.

Lemma mapM_first_failure {A B : Type} (f : A -> result B) (l1 l2 : list A)
      (x : A) (ys : list B) (e : pyerr) :
  mapM f l1 = Ok ys -> f x = Raise e -> mapM f (l1 ++ x :: l2) = Raise e.
Proof.
  revert ys. induction l1 as [| y l1 IH]; intros ys Hl Hx; cbn in *.
  - now rewrite Hx.
  - destruct (f y); cbn in *; [| discriminate].
    destruct (mapM f l1) as [zs |]; cbn in *; [| discriminate].
    now rewrite (IH zs eq_refl Hx).
Qed.

(** X9. [_vertex_mapper] stops at the first element that cannot be looked
    up: when the elements before it map to vertices, its exception is the
    result, whatever the elements after it are. *)
Theorem vertex_mapper_first_failure
        (l1 l2 : list pyval) (x vertices : pyval) (ys : list pyval) (e : pyerr) :
  Geometry._vertex_mapper (PList l1) vertices = Ok (PList ys) ->
  py_getitem vertices x = Raise e ->
  Geometry._vertex_mapper (PList (l1 ++ x :: l2)) vertices = Raise e.
Proof.
  unfold Geometry._vertex_mapper, list_for. cbn [py_iter bind]. intros H1 Hx.
  destruct (mapM (fun x0 => py_getitem vertices x0) l1) as [zs |] eqn:E;
    cbn in H1; [| discriminate].
  now rewrite (mapM_first_failure _ l1 l2 x zs e E Hx).
Qed.

Lemma vertex_mapper_first_failure_witness :
  Geometry._vertex_mapper (PList ([PInt 0; PInt 2] ++ PNone :: [PInt 9]))
    (PList triangle_vertices)
  = Raise (TypeError "list indices must be integers or slices, not NoneType").
Proof.
  apply (vertex_mapper_first_failure [PInt 0; PInt 2] [PInt 9] PNone
           (PList triangle_vertices)
           [PList [PInt 0; PInt 0; PInt 0]; PList [PInt 0; PInt 1; PInt 0]]);
    reflexivity.
Defined.

(** ** Addresses of other lengths *)

Lemma get_surface_boundaries_rounds (b x : pyval) (rest : list pyval) :
  Geometry._get_surface_boundaries b (PList (x :: rest))
  = list_for (PList (x :: rest)) (resolve_round b).
Proof.
  unfold Geometry._get_surface_boundaries. cbn [truthy negb py_len bind].
  destruct (Z.of_nat (Datatypes.length (x :: rest)) =? 0) eqn:E; [| reflexivity].
  apply Z.eqb_eq in E. cbn [Datatypes.length] in E. lia.
Qed.

Lemma seq_index_nat {A : Type} (l : list A) (n : nat) :
  seq_index l (Z.of_nat n) = nth_error l n.
Proof.
  unfold seq_index.
  replace (0 <=? Z.of_nat n) with true by (symmetry; apply Z.leb_le; lia).
  replace (Z.of_nat n <? 0) with false by (symmetry; apply Z.ltb_ge; lia).
  rewrite andb_false_r. cbn [andb].
  destruct (Z.of_nat n <? Z.of_nat (Datatypes.length l)) eqn:E.
  - now rewrite Nat2Z.id.
  - apply Z.ltb_ge in E. symmetry. apply nth_error_None. lia.
Qed.

Lemma getitem_address (a : list Z) (n : nat) (i : Z) :
  nth_error a n = Some i ->
  py_getitem (py_address a) (PInt (Z.of_nat n)) = Ok (PInt i).
Proof.
  intros H. unfold py_address. cbn [py_getitem].
  rewrite seq_index_nat, nth_error_map, H. reflexivity.
Qed.

Lemma resolve_round_long (b : pyval) (a : list Z) :
  address_long a = true ->
  resolve_round b (py_address a) = index_path b (firstn 3 a).
Proof.
  destruct a as [| i [| j [| k rest]]]; try discriminate; intros _.
  unfold resolve_round.
  assert (Hlen : py_len (py_address (i :: j :: k :: rest))
                 = Ok (3 + Z.of_nat (Datatypes.length rest))).
  { unfold py_address. cbn [py_len map Datatypes.length]. f_equal.
    rewrite length_map. lia. }
  rewrite Hlen. cbn [bind].
  replace (3 + Z.of_nat (Datatypes.length rest) =? 1) with false
    by (symmetry; apply Z.eqb_neq; lia).
  replace (3 + Z.of_nat (Datatypes.length rest) =? 2) with false
    by (symmetry; apply Z.eqb_neq; lia).
  change (PInt 0) with (PInt (Z.of_nat 0)).
  change (PInt 1) with (PInt (Z.of_nat 1)).
  change (PInt 2) with (PInt (Z.of_nat 2)).
  rewrite (getitem_address (i :: j :: k :: rest) 0 i eq_refl),
    (getitem_address (i :: j :: k :: rest) 1 j eq_refl),
    (getitem_address (i :: j :: k :: rest) 2 k eq_refl).
  cbn. destruct (py_getitem b (PInt i)) as [b0 |]; cbn; [| reflexivity].
  destruct (py_getitem b0 (PInt j)); cbn; [| reflexivity].
  now rewrite bind_Ok_r.
Qed.

(** X10. [_get_surface_boundaries] resolves an address of more than three
    components by its first three alone, and an empty address raises the
    [IndexError] of reading its first component. *)
Theorem get_surface_boundaries_other_lengths :
  (forall b (addrs : list (list Z)),
      forallb address_long addrs = true ->
      Geometry._get_surface_boundaries b (PList (map py_address addrs))
      = resolve b (map (firstn 3) addrs)) /\
  (forall b (rest : list pyval),
      Geometry._get_surface_boundaries b (PList (py_address [] :: rest))
      = Raise out_of_range).
Proof.
  split.
  - intros b addrs H. destruct addrs as [| a addrs]; [reflexivity |].
    cbn [map]. rewrite get_surface_boundaries_rounds.
    unfold resolve, list_for. cbn [py_iter bind].
    change (py_address a :: map py_address addrs) with (map py_address (a :: addrs)).
    change (firstn 3 a :: map (firstn 3) addrs) with (map (firstn 3) (a :: addrs)).
    rewrite !mapM_map. f_equal. apply mapM_ext.
    intros x Hx. apply resolve_round_long.
    rewrite forallb_forall in H. now apply H.
  - intros b rest. rewrite get_surface_boundaries_rounds. reflexivity.
Qed.

Lemma get_surface_boundaries_other_lengths_witness :
  Geometry._get_surface_boundaries (PList [triangle_surface])
    (PList (map py_address [[0; 0; 1; 7; 7]; [0; 0; 2]]))
  = resolve (PList [triangle_surface]) (map (firstn 3) [[0; 0; 1; 7; 7]; [0; 0; 2]]).
Proof.
  apply (proj1 get_surface_boundaries_other_lengths). reflexivity.
Defined.

(** ** A growing vertex table *)

Lemma deep_ext (f g : pyval -> result pyval) (p : Z -> bool) :
  (forall i, p i = true -> f (PInt i) = g (PInt i)) ->
  forall d v, leaves_ok p d v = true -> deep d f v = deep d g v.
Proof.
  intros Hfg. induction d as [| d IH]; intros v Hv; cbn in *.
  - destruct v; try discriminate. now apply Hfg.
  - destruct v; try discriminate. rewrite forallb_forall in Hv.
    unfold list_for. cbn. f_equal. apply mapM_ext.
    intros x Hx. apply IH. now apply Hv.
Qed.

Lemma seq_index_app (vs extra : list pyval) (i : Z) :
  in_range vs i = true -> seq_index (vs ++ extra) i = seq_index vs i.
Proof.
  unfold in_range, vlen, seq_index. intros H. rewrite H.
  apply andb_prop in H. destruct H as [H0 Hn].
  apply Z.leb_le in H0. apply Z.ltb_lt in Hn.
  rewrite length_app.
  replace (0 <=? i) with true by (symmetry; apply Z.leb_le; lia).
  replace (i <? Z.of_nat (Datatypes.length vs + Datatypes.length extra)) with true
    by (symmetry; apply Z.ltb_lt; lia).
  cbn [andb]. apply nth_error_app1. lia.
Qed.

(** X11. Vertices appended to the table do not change what a boundary of
    non-negative indices within the old table dereferences to. *)
Theorem dereference_boundary_table_extension
        (k : GeometryKind) (s : string) (boundary : pyval) (vs extra : list pyval) :
  names_kind s k ->
  leaves_ok (in_range vs) (kind_depth k) boundary = true ->
  Geometry._dereference_boundary (PStr s) boundary (PList (vs ++ extra))
  = Geometry._dereference_boundary (PStr s) boundary (PList vs).
Proof.
  intros Hs Hl. destruct (truthy boundary) eqn:Ht.
  - rewrite !(dereference_boundary_deep k s boundary _ Hs Ht).
    apply (deep_ext _ _ (in_range vs)); [| assumption].
    intros i Hi. cbn. now rewrite seq_index_app.
  - unfold Geometry._dereference_boundary. now rewrite Ht.
Qed.

Lemma dereference_boundary_table_extension_witness :
  Geometry._dereference_boundary (PStr "MultiSurface") triangle_boundary
    (PList (triangle_vertices ++ [PList [PInt 5; PInt 5; PInt 5]]))
  = Geometry._dereference_boundary (PStr "MultiSurface") triangle_boundary
      (PList triangle_vertices).
Proof.
  apply (dereference_boundary_table_extension MultiSurface); reflexivity.
Defined.

(** ** Generators side by side *)

Lemma heap_nth_mid (h t : heap) (g : genexpr) :
  nth_error (h ++ g :: t) (Datatypes.length h) = Some g.
Proof. induction h; [reflexivity | assumption]. Qed.

Lemma heap_set_mid (h t : heap) (g g' : genexpr) :
  heap_set (Datatypes.length h) g' (h ++ g :: t) = h ++ g' :: t.
Proof.
  induction h as [| g0 h IH]; [reflexivity |]. cbn. now rewrite IH.
Qed.

Lemma py_list_generator_mid (str_lower : lowering) (s : string)
      (l : list CityObject.t) (h t : heap) :
  py_list str_lower (OGen (Datatypes.length h)) (h ++ mk_genexpr l (str_lower s) :: t)
  = (of_type str_lower s l, h ++ exhausted str_lower s :: t).
Proof.
  unfold py_list. rewrite heap_nth_mid. cbn [pending].
  rewrite gen_drain_filters by lia. now rewrite heap_set_mid.
Qed.

(** X12. Two generators obtained from one model are independent: a full
    pass over the first leaves the second, and every generator made
    earlier, as it was, and the second then still yields all the
    CityObjects whose lowered type is its own lowered filter. *)
Theorem get_cityobjects_generators_independent
        (str_lower : lowering) (self : CityModel.t) (s1 s2 : string) (h : heap) :
  let g1 := mk_genexpr (CityModel.cityobjects self) (str_lower s1) in
  let g2 := mk_genexpr (CityModel.cityobjects self) (str_lower s2) in
  CityModel.get_cityobjects str_lower self (PStr s1) h
  = Ok (OGen (Datatypes.length h), h ++ [g1]) /\
  CityModel.get_cityobjects str_lower self (PStr s2) (h ++ [g1])
  = Ok (OGen (S (Datatypes.length h)), h ++ [g1; g2]) /\
  py_list str_lower (OGen (Datatypes.length h)) (h ++ [g1; g2])
  = (of_type str_lower s1 (CityModel.cityobjects self),
     h ++ [exhausted str_lower s1; g2]) /\
  py_list str_lower (OGen (S (Datatypes.length h)))
    (h ++ [exhausted str_lower s1; g2])
  = (of_type str_lower s2 (CityModel.cityobjects self),
     h ++ [exhausted str_lower s1; exhausted str_lower s2]).
Proof.
  intros g1 g2. split; [reflexivity |]. split; [| split].
  - cbn. rewrite length_app, <- app_assoc. cbn. f_equal. f_equal. f_equal. lia.
  - apply py_list_generator_mid.
  - replace (S (Datatypes.length h))
      with (Datatypes.length (h ++ [exhausted str_lower s1]))
      by (rewrite length_app; cbn; lia).
    change (h ++ [exhausted str_lower s1; g2])
      with (h ++ [exhausted str_lower s1] ++ [g2]).
    rewrite app_assoc. unfold g2. rewrite py_list_generator_mid.
    now rewrite <- app_assoc.
Qed.

(** ** The order of the keys *)

Lemma keys_update (k : pykey) (f : list address -> list address) (st : SurfaceIndex) :
  map fst (assoc_update pykey_eqb k f st) = map fst st.
Proof.
  induction st as [| [k0 v0] st IH]; cbn; [reflexivity |].
  destruct (pykey_eqb k k0); cbn; [reflexivity | now rewrite IH].
Qed.

Lemma keys_set_absent (k : pykey) (v : list address) (st : SurfaceIndex) :
  assoc_get pykey_eqb k st = None ->
  map fst (assoc_set pykey_eqb k v st) = map fst st ++ [k].
Proof.
  induction st as [| [k0 v0] st IH]; cbn; [reflexivity |].
  destruct (pykey_eqb k k0); [discriminate |]. intros H. cbn. now rewrite IH.
Qed.

Lemma mem_int_keys (z : Z) (ks : list Z) :
  forall st : SurfaceIndex,
    map fst st = map KInt ks ->
    assoc_mem pykey_eqb (KInt z) st = existsb (Z.eqb z) ks.
Proof.
  unfold assoc_mem.
  induction ks as [| k ks IH]; intros st H; destruct st as [| [k0 v0] st];
    try discriminate H; [reflexivity |].
  cbn in H. injection H as -> Hst. cbn.
  destruct (z =? k); [reflexivity |]. now apply IH.
Qed.

Lemma keys_record_all_order (ps : list (address * Z)) :
  forall (ks : list Z) (st : SurfaceIndex),
    map fst st = map KInt ks ->
    map fst (record_all ps st) = map KInt (ks ++ first_seen ks (map snd ps)).
Proof.
  unfold record_all.
  induction ps as [| [a z] ps IH]; intros ks st Hst; cbn [fold_left map snd first_seen].
  - now rewrite app_nil_r.
  - pose proof (mem_int_keys z ks st Hst) as Hm.
    unfold add_occurrence at 2. cbn [fst snd]. rewrite Hm.
    destruct (existsb (Z.eqb z) ks) eqn:E; cbn [negb].
    + apply IH. now rewrite keys_update.
    + rewrite (IH (ks ++ [z])).
      * now rewrite <- app_assoc.
      * rewrite keys_set_absent, Hst, map_app; [reflexivity |].
        unfold assoc_mem in Hm.
        destruct (assoc_get pykey_eqb (KInt z) st); [discriminate | reflexivity].
Qed.

(** X13. The keys of the index are the identifiers of the values array in
    the order in which the traversal meets each of them first, the order
    in which iterating over the dict yields them. *)
Theorem index_keys_first_seen (l : list pyval) :
  forallb (values_ok 2) l = true ->
  exists idx,
    SemanticSurface._index_surface_boundaries (PList l) = Ok idx /\
    map fst idx = map KInt (first_seen [] (map snd (occurrences (PList l)))).
Proof.
  intros Hl. exists (record_all (occurrences (PList l)) []).
  split; [now apply index_records_occurrences |].
  now apply (keys_record_all_order _ [] []).
Qed.

Lemma index_keys_first_seen_witness :
  exists idx,
    SemanticSurface._index_surface_boundaries
      (PList [PInt 7; PList [PInt 2; PInt 7]; PInt 2; PInt 0]) = Ok idx /\
    map fst idx
    = map KInt (first_seen [] (map snd (occurrences
                 (PList [PInt 7; PList [PInt 2; PInt 7]; PInt 2; PInt 0])))).
Proof.
  apply (index_keys_first_seen [PInt 7; PList [PInt 2; PInt 7]; PInt 2; PInt 0]).
  reflexivity.
Defined.

(** ** Addresses outside the boundary *)

(** X14. When the first component of the first address lies beyond the
    boundary list, at or above its length or below minus its length, the
    resolver returns nothing, whatever the other addresses are: it raises
    the [IndexError] of list indexing, whose message is that the index is
    out of range or, for a component outside the machine word, that it
    does not fit an index-sized integer. *)
Theorem get_surface_boundaries_beyond_range
        (bl : list pyval) (i : Z) (q : list Z) (rest : list pyval) :
  address_len_ok (i :: q) = true ->
  beyond_range bl i = true ->
  Geometry._get_surface_boundaries (PList bl) (PList (py_address (i :: q) :: rest))
  = Raise (beyond_error i).
Proof.
  intros Hlen Hi. rewrite get_surface_boundaries_rounds.
  unfold list_for. cbn [py_iter bind mapM].
  change (resolve_round (PList bl) (py_address (i :: q)))
    with (n1 <- py_len (py_address (i :: q)) ;;
          if n1 =? 1 then
            i0 <- py_getitem (py_address (i :: q)) (PInt 0) ;;
            py_getitem (PList bl) i0
          else
            n2 <- py_len (py_address (i :: q)) ;;
            if n2 =? 2 then
              i0 <- py_getitem (py_address (i :: q)) (PInt 0) ;;
              b0 <- py_getitem (PList bl) i0 ;;
              i1 <- py_getitem (py_address (i :: q)) (PInt 1) ;;
              py_getitem b0 i1
            else
              i0 <- py_getitem (py_address (i :: q)) (PInt 0) ;;
              b0 <- py_getitem (PList bl) i0 ;;
              i1 <- py_getitem (py_address (i :: q)) (PInt 1) ;;
              b1 <- py_getitem b0 i1 ;;
              i2 <- py_getitem (py_address (i :: q)) (PInt 2) ;;
              py_getitem b1 i2).
  rewrite (resolve_one (PList bl) (i :: q) Hlen).
  cbn [index_path py_getitem]. rewrite (seq_index_beyond bl i Hi).
  cbn [bind]. now rewrite index_error_list.
Qed.

Lemma get_surface_boundaries_beyond_range_witness :
  Geometry._get_surface_boundaries (PList [triangle_surface])
    (PList (py_address [1; 0] :: [py_address [0]]))
  = Raise out_of_range /\
  Geometry._get_surface_boundaries (PList [triangle_surface])
    (PList (py_address [18446744073709551616] :: [py_address [0]]))
  = Raise cannot_fit.
Proof.
  split.
  - apply (get_surface_boundaries_beyond_range [triangle_surface] 1 [0]);
      reflexivity.
  - apply (get_surface_boundaries_beyond_range [triangle_surface]
             18446744073709551616 []); reflexivity.
Defined.
